(** * lib/util_hash.c of xbps: file mapping, SHA-256 digests of files and
    their verification against package metadata.

    The C functions of the file are embedded as Rocq functions with the
    same names.  Conventions of the embedding:

    - a C string is the sequence of its characters before the terminating
      NUL, a Stdlib [string]; [strlen] is [String.length];
    - a buffer of [unsigned char] is a [list byte]; reading past its end
      is undefined behaviour, result [Undef];
    - [assert] is kept: it aborts ([Abort]) unless the build defines
      [NDEBUG];
    - [size_t] arithmetic wraps modulo [2 ^ size_bits];
    - system calls take their results from an oracle ([os]) and are logged
      in a trace together with [errno]. *)

From Stdlib Require Import ZArith Lia Strings.Ascii Strings.String Strings.Byte.
From stdpp Require Import base option list strings gmap vector.

Local Open Scope Z_scope.

(** ** Results of C computations *)

Inductive res (A : Type) : Type :=
| Ok (a : A)
| Abort
| Undef.
Arguments Ok {A} a.
Arguments Abort {A}.
Arguments Undef {A}.

#[global] Instance res_ret : MRet res := λ A a, Ok a.
#[global] Instance res_bind : MBind res := λ A B f m,
  match m with
  | Ok a => f a
  | Abort => Abort
  | Undef => Undef
  end.

(** [assert(c)] of <assert.h>. *)
Definition assert (NDEBUG : bool) (c : bool) : res unit :=
  if NDEBUG then Ok tt else if c then Ok tt else Abort.

(** ** Constants *)

(** Modelled from the spec: the macros [XBPS_SHA256_DIGEST_SIZE] and
    [XBPS_SHA256_SIZE] of xbps.h, which is not part of the sources at
    hand ("a fixed 32-byte raw SHA-256 value, or its 64-character
    lowercase-hex string representation (65 bytes including
    terminator)"). *)
Definition XBPS_SHA256_DIGEST_SIZE : nat := 32.
Definition XBPS_SHA256_SIZE : nat := 65.

(** <errno.h>, Linux values. *)
Definition ENOENT : Z := 2.
Definition EINVAL : Z := 22.
Definition ERANGE : Z := 34.
Definition ENOBUFS : Z := 105.

(** ** Hexadecimal digests *)

Definition byte_val (b : byte) : Z := Z.of_N (Byte.to_N b).

(** The character with code [n], as an [int] stored into a [char]. *)
Definition char_of (n : Z) : ascii := ascii_of_N (Z.to_N n).

Definition chr_0 : Z := 48.  (* '0' *)
Definition chr_a : Z := 97.  (* 'a' *)

(** The expression both loops of the file use for one nibble [v]:
    [v < 10 ? '0' + v : 'a' + v - 10]. *)
Definition nibble_char (v : Z) : ascii :=
  if v <? 10 then char_of (chr_0 + v) else char_of (chr_a + v - 10).

(** [digest2string(digest, string, len)]: the function returns the C
    string it leaves in [string]. *)
Fixpoint digest2string (digest : list byte) (len : nat) : res string :=
  match len with
  | O => Ok EmptyString
  | S len' =>
      match digest with
      | [] => Undef
      | b :: digest' =>
          let hi := nibble_char (byte_val b / 16) in
          let lo := nibble_char (byte_val b mod 16) in
          s ← digest2string digest' len';
          Ok (String hi (String lo s))
      end
  end.

(** The [for (; *sha256;)] loop of [sha256_digest_compare].  The second
    character of a pair is read without a test for the terminator: at the
    end of a string of odd length the terminator itself is compared with
    the low nibble's character. *)
Fixpoint sha256_digest_compare_loop (sha256 : string) (digest : list byte)
  : res bool :=
  match sha256 with
  | EmptyString => Ok true
  | String c1 s1 =>
      match digest with
      | [] => Undef
      | b :: digest' =>
          if negb (Ascii.eqb c1 (nibble_char (byte_val b / 16))) then Ok false
          else
            match s1 with
            | EmptyString =>
                if negb (Ascii.eqb Ascii.zero (nibble_char (byte_val b mod 16)))
                then Ok false
                else Undef
            | String c2 s2 =>
                if negb (Ascii.eqb c2 (nibble_char (byte_val b mod 16)))
                then Ok false
                else sha256_digest_compare_loop s2 digest'
            end
      end
  end.

Definition sha256_digest_compare (NDEBUG : bool)
    (sha256 : string) (shalen : nat) (digest : list byte) (digestlen : nat)
  : res bool :=
  _ ← assert NDEBUG (Nat.eqb shalen (XBPS_SHA256_SIZE - 1));
  if negb (Nat.eqb shalen (XBPS_SHA256_SIZE - 1)) then Ok false
  else
    _ ← assert NDEBUG (Nat.eqb digestlen XBPS_SHA256_DIGEST_SIZE);
    if negb (Nat.eqb digestlen XBPS_SHA256_DIGEST_SIZE) then Ok false
    else sha256_digest_compare_loop sha256 digest.

(** The comparison the loop is meant to replace: encode, then compare the
    two strings ([hex_encode(raw_digest) == hex_string]). *)
Definition encode_then_compare (sha256 : string) (digest : list byte) : bool :=
  match digest2string digest XBPS_SHA256_DIGEST_SIZE with
  | Ok h => String.eqb h sha256
  | _ => false
  end.

(** ** The machine: errno, system calls and their trace *)

Inductive event : Type :=
| EvOpen (path : string)
| EvFstat (fd : Z)
| EvMmap (len : Z) (fd : Z)
| EvMunmap (addr : Z) (len : Z)
| EvRead (fd : Z) (count : Z)
| EvClose (fd : Z)
| EvAlloc (s : string)
| EvFree (s : string).

(** What one call of [read] answers: the bytes it stored in the buffer
    (their number is the return value, none at end of file) or -1 with an
    error code in [errno]. *)
Inductive read_result : Type :=
| RBytes (buf : list byte)
| RError (e : Z).

(** The system the program runs on.  A failing call answers with the code
    it leaves in [errno]. *)
Record os : Type := {
  os_size_bits : Z;                      (* width of size_t and ssize_t *)
  os_pagesize : Z;                       (* sysconf(_SC_PAGESIZE) *)
  os_open : string → Z + N;
  os_fstat : Z → Z + Z;                  (* st_size *)
  os_mmap : Z → Z → Z + N;               (* length, descriptor *)
  os_munmap : Z → Z → option Z;
  os_read : Z → Z → list read_result;    (* the answers of successive reads *)
  os_close : Z → option Z
}.

Record state : Type := State {
  errno : Z;
  trace : list event
}.

Definition M (A : Type) : Type := state → res (A * state).

#[global] Instance M_ret : MRet M := λ A a s, Ok (a, s).
#[global] Instance M_bind : MBind M := λ A B f m s,
  match m s with
  | Ok (a, s') => f a s'
  | Abort => Abort
  | Undef => Undef
  end.

(** The state after the calls [evs] were logged. *)
Definition logged (s : state) (evs : list event) : state :=
  {| errno := errno s; trace := trace s ++ evs |}.

Definition get_errno : M Z := λ s, Ok (errno s, s).
Definition set_errno (e : Z) : M unit :=
  λ s, Ok (tt, {| errno := e; trace := trace s |}).
Definition emit (e : event) : M unit := λ s, Ok (tt, logged s [e]).
Definition lift {A : Type} (r : res A) : M A :=
  λ s, match r with Ok a => Ok (a, s) | Abort => Abort | Undef => Undef end.

(** The value a run returns, when it returns. *)
Definition retval {A : Type} (r : res (A * state)) : option A :=
  match r with Ok (a, _) => Some a | _ => None end.

(** ** The metadata collection *)

(** Modelled from the spec: the objects of the property-list library
    ("an opaque associative/array structure supporting keyed retrieval and
    entry iteration"), whose code is not part of the sources at hand. *)
#[warnings="-register-all"]
Inductive xbps_object : Type :=
| XBool (b : bool)
| XNumber (n : Z)
| XString (s : string)
| XArray (items : list xbps_object)
| XDictionary (entries : gmap string xbps_object).

(** Modelled from the spec: [xbps_array_iter_from_dict]
    ("iterate_array_under(dictionary, key) -> iterator-or-null"); the
    iterator is the list of the objects still to be yielded. *)
Definition xbps_array_iter_from_dict
    (d : gmap string xbps_object) (key : string) : option (list xbps_object) :=
  match d !! key with
  | Some (XArray items) => Some items
  | _ => None
  end.

(** Modelled from the spec: [xbps_dictionary_get_cstring_nocopy] (each
    yielded entry supports [get_string(entry, key)]): the string bound to
    [key], if [obj] is a dictionary that binds [key] to a string. *)
Definition xbps_dictionary_get_cstring_nocopy
    (obj : xbps_object) (key : string) : option string :=
  match obj with
  | XDictionary entries =>
      match entries !! key with
      | Some (XString s) => Some s
      | _ => None
      end
  | _ => None
  end.

(** The getter stores through its last argument on success only; the
    variable keeps its value otherwise. *)
Definition stored {A : Type} (got : option A) (var : option A) : option A :=
  match got with
  | Some v => Some v
  | None => var
  end.

(** [struct xbps_handle], of which the file reads [rootdir] only. *)
Record xbps_handle : Type := {
  rootdir : string
}.

(** The values [xbps_file_hash_check_dictionary] returns, named after the
    comments at its [return] statements: 0 is [matched], 1 is [no match]
    and also [no match, file not found], -1 is [error]. *)
Definition rc_matched : Z := 0.
Definition rc_no_match : Z := 1.
Definition rc_error : Z := -1.

(** ** The functions of util_hash.c *)

Section util_hash.

(** The build ([-DNDEBUG] or not), the system, and SHA-256 itself
    (OpenSSL's [SHA256_Init], [SHA256_Update], [SHA256_Final]), which
    maps the bytes fed to the context to a digest of 32 bytes. *)
Variable NDEBUG : bool.
Variable OS : os.
Variable SHA256 : list byte → vec byte 32.

(** *** Integer types *)

Definition size_modulus : Z := 2 ^ os_size_bits OS.
Definition SSIZE_MAX : Z := 2 ^ (os_size_bits OS - 1) - 1.
(** Conversion to [size_t], and the result of [size_t] arithmetic. *)
Definition to_size_t (n : Z) : Z := n mod size_modulus.

Definition MAP_FAILED : Z := -1.

(** *** System calls *)

Definition open (file : string) : M Z :=
  _ ← emit (EvOpen file);
  match os_open OS file with
  | inl e => _ ← set_errno e; mret (-1)
  | inr fd => mret (Z.of_N fd)
  end.

(** Returns the result of the call and [st.st_size]. *)
Definition fstat (fd : Z) : M (Z * Z) :=
  _ ← emit (EvFstat fd);
  match os_fstat OS fd with
  | inl e => _ ← set_errno e; mret (-1, 0)
  | inr size => mret (0, size)
  end.

Definition close (fd : Z) : M Z :=
  _ ← emit (EvClose fd);
  match os_close OS fd with
  | Some e => _ ← set_errno e; mret (-1)
  | None => mret 0
  end.

(** [mmap(NULL, len, PROT_READ, MAP_PRIVATE, fd, 0)]. *)
Definition mmap (len : Z) (fd : Z) : M Z :=
  _ ← emit (EvMmap len fd);
  match os_mmap OS len fd with
  | inl e => _ ← set_errno e; mret MAP_FAILED
  | inr a => mret (Z.of_N a)
  end.

Definition munmap (addr : Z) (len : Z) : M Z :=
  _ ← emit (EvMunmap addr len);
  match os_munmap OS addr len with
  | Some e => _ ← set_errno e; mret (-1)
  | None => mret 0
  end.

(** One [read(fd, buf, count)] that is answered [r]: the return value
    and the bytes now in [buf]. *)
Definition read (fd : Z) (count : Z) (r : read_result) : M (Z * list byte) :=
  _ ← emit (EvRead fd count);
  match r with
  | RBytes buf => mret (Z.of_nat (length buf), buf)
  | RError e => _ ← set_errno e; mret (-1, [])
  end.

(** [xbps_xasprintf("%s/%s", a, b)] and [free]. *)
Definition xbps_xasprintf (a b : string) : M string :=
  let buf := (a ++ "/" ++ b)%string in
  _ ← emit (EvAlloc buf); mret buf.

Definition free (buf : string) : M unit := emit (EvFree buf).

(** *** xbps_mmap_file *)

(** On success the values stored in [*mmf], [*mmflen] and [*filelen];
    [None] stands for [false].  [st_size] is an [off_t], compared with
    [SSIZE_MAX - 1] as a signed number and converted to [size_t] where
    the source casts or assigns it; in [st.st_size & pgmask] the mask
    has its bits below those of [size_t], so that the conjunction is the
    one of the two numbers whichever of the two types the operands are
    converted to. *)
Definition xbps_mmap_file (file : string) : M (option (Z * Z * Z)) :=
  let pgsize := to_size_t (os_pagesize OS) in
  let pgmask := to_size_t (pgsize - 1) in
  fd ← open file;
  if fd =? -1 then mret None
  else
    '(rc, st_size) ← fstat fd;
    if rc =? -1 then _ ← close fd; mret None
    else if st_size >? SSIZE_MAX - 1 then _ ← close fd; mret None
    else
      let mapsize :=
        Z.land (to_size_t (to_size_t st_size + pgmask))
               (to_size_t (Z.lnot pgmask)) in
      if mapsize <? to_size_t st_size then _ ← close fd; mret None
      else
        let need_guard := Z.land st_size pgmask =? 0 in
        mf ← mmap (if need_guard then to_size_t (mapsize + pgsize)
                   else mapsize) fd;
        _ ← close fd;
        if mf =? MAP_FAILED then _ ← munmap mf mapsize; mret None
        else mret (Some (mf, mapsize, to_size_t st_size)).

(** *** xbps_file_sha256_raw *)

(** The context holds the bytes fed so far. *)
Definition SHA256_Init : list byte := [].
Definition SHA256_Update (ctx buf : list byte) (len : Z) : list byte :=
  ctx ++ take (Z.to_nat len) buf.
Definition SHA256_Final (ctx : list byte) : list byte :=
  vec_to_list (SHA256 ctx).

Definition sizeof_buf : Z := 65536.

(** [while ((len = read(fd, buf, sizeof(buf))) > 0) SHA256_Update(..)]
    against the answers the descriptor still has; past the last of them
    it is at end of file.  Returns [len] and the context.  The list
    describes a descriptor whose reads end.  A descriptor that never
    answers 0 or -1, on which the loop of the source does not return,
    has no list of answers: that the function returns is stated below
    only where the answers themselves hold the empty or the failing
    read that ends the loop ([reads_end]). *)
Fixpoint sha256_read_loop (fd : Z) (answers : list read_result)
    (sha256 : list byte) : M (Z * list byte) :=
  match answers with
  | [] =>
      '(len, _) ← read fd sizeof_buf (RBytes []);
      mret (len, sha256)
  | r :: answers' =>
      '(len, buf) ← read fd sizeof_buf r;
      if len >? 0
      then sha256_read_loop fd answers' (SHA256_Update sha256 buf len)
      else mret (len, sha256)
  end.

(** On success the digest stored in [dst]; [None] stands for [false]. *)
Definition xbps_file_sha256_raw (dstlen : nat) (file : string)
  : M (option (list byte)) :=
  _ ← lift (assert NDEBUG (XBPS_SHA256_DIGEST_SIZE <=? dstlen)%nat);
  if (dstlen <? XBPS_SHA256_DIGEST_SIZE)%nat
  then _ ← set_errno ENOBUFS; mret None
  else
    fd ← open file;
    if fd <? 0 then mret None
    else
      '(len, sha256) ← sha256_read_loop fd (os_read OS fd sizeof_buf)
                         SHA256_Init;
      _ ← close fd;
      if len =? -1 then mret None
      else mret (Some (SHA256_Final sha256)).

(** *** xbps_file_sha256 *)

Definition xbps_file_sha256 (dstlen : nat) (file : string)
  : M (option string) :=
  _ ← lift (assert NDEBUG (XBPS_SHA256_SIZE <=? dstlen)%nat);
  if (dstlen <? XBPS_SHA256_SIZE)%nat
  then _ ← set_errno ENOBUFS; mret None
  else
    r ← xbps_file_sha256_raw XBPS_SHA256_DIGEST_SIZE file;
    match r with
    | None => mret None
    | Some digest =>
        dst ← lift (digest2string digest XBPS_SHA256_DIGEST_SIZE);
        mret (Some dst)
    end.

(** *** xbps_file_sha256_check *)

Definition xbps_file_sha256_check (file : string) (sha256 : string) : M Z :=
  r ← xbps_file_sha256_raw XBPS_SHA256_DIGEST_SIZE file;
  match r with
  | None => get_errno
  | Some digest =>
      same ← lift (sha256_digest_compare NDEBUG sha256 (String.length sha256)
                     digest XBPS_SHA256_DIGEST_SIZE);
      if negb same then mret ERANGE else mret 0
  end.

(** *** file_hash_dictionary *)

(** The [while] loop over the iterator; returns the final value of the
    variable [sha256].  [curfile] is [None] while it is [NULL], and
    [strcmp] on it is then undefined. *)
Fixpoint file_hash_dictionary_loop (file : string) (iter : list xbps_object)
    (curfile : option string) : res (option string) :=
  match iter with
  | [] => Ok None
  | obj :: iter' =>
      let curfile :=
        stored (xbps_dictionary_get_cstring_nocopy obj "file") curfile in
      match curfile with
      | None => Undef
      | Some cur =>
          if String.eqb file cur
          then Ok (stored (xbps_dictionary_get_cstring_nocopy obj "sha256")
                          None)
          else file_hash_dictionary_loop file iter' curfile
      end
  end.

(** [None] is the [NULL] result. *)
Definition file_hash_dictionary (d : gmap string xbps_object)
    (key : string) (file : string) : M (option string) :=
  match xbps_array_iter_from_dict d key with
  | None => _ ← set_errno ENOENT; mret None
  | Some iter =>
      sha256 ← lift (file_hash_dictionary_loop file iter None);
      _ ← (if sha256 is None then set_errno ENOENT else mret tt);
      mret sha256
  end.

(** *** xbps_file_hash_check_dictionary *)

Definition xbps_file_hash_check_dictionary (xhp : xbps_handle)
    (d : gmap string xbps_object) (key : string) (file : string) : M Z :=
  sha256d ← file_hash_dictionary d key file;
  match sha256d with
  | None =>
      e ← get_errno;
      if e =? ENOENT then mret rc_no_match else mret rc_error
  | Some sha256d =>
      rv ← (if String.eqb (rootdir xhp) "/"
            then xbps_file_sha256_check file sha256d
            else
              buf ← xbps_xasprintf (rootdir xhp) file;
              rv ← xbps_file_sha256_check buf sha256d;
              _ ← free buf;
              mret rv);
      if rv =? 0 then mret rc_matched
      else if (rv =? ERANGE) || (rv =? ENOENT) then mret rc_no_match
      else mret rc_error
  end.

End util_hash.

(** ** Notions of the specification *)

(** [round_up(file_size, page_size)]: the least multiple of [p] that is
    not below [s]. *)
Definition round_up (s p : Z) : Z := (s + (p - 1)) / p * p.

(** The length asked of [mmap] for a file of size [s]: a page more than
    the rounded size exactly when the size is a multiple of the page
    size. *)
Definition guarded_length (s p : Z) : Z :=
  if decide (s mod p = 0) then round_up s p + p else round_up s p.

(** A page size is a power of two that [size_t] can hold. *)
Definition page_size_ok (OS : os) (k : Z) : Prop :=
  os_pagesize OS = 2 ^ k ∧ 0 ≤ k < os_size_bits OS.

(** The bytes a descriptor delivers up to end of file, or the code of the
    [read] that failed before. *)
Fixpoint file_contents (answers : list read_result) : Z + list byte :=
  match answers with
  | [] => inr []
  | RBytes [] :: _ => inr []
  | RBytes buf :: answers' =>
      match file_contents answers' with
      | inl e => inl e
      | inr rest => inr (buf ++ rest)
      end
  | RError e :: _ => inl e
  end.

(** The effective path of the specification: the path itself under the
    root directory [/], and else the root directory, a slash and the
    path. *)
Definition effective_path (xhp : xbps_handle) (path : string) : string :=
  if String.eqb (rootdir xhp) "/" then path
  else (rootdir xhp ++ "/" ++ path)%string.

(** The calls made on a descriptor once it is open. *)
Definition is_descriptor_io (e : event) : Prop :=
  match e with
  | EvRead _ _ | EvClose _ => True
  | _ => False
  end.

(** The field [file] of an entry. *)
Definition entry_file (obj : xbps_object) : option string :=
  xbps_dictionary_get_cstring_nocopy obj "file".

(** The first object of the array names a file: [curfile] is set before
    [strcmp] first reads it. *)
Definition first_names_file (items : list xbps_object) : Prop :=
  match items with
  | [] => True
  | obj :: _ => is_Some (entry_file obj)
  end.

(** [curfile] can be compared: it is set, or the next object sets it. *)
Definition curfile_usable (items : list xbps_object)
    (curfile : option string) : Prop :=
  curfile = None → first_names_file items.

(** ** Example systems and collections *)

(** A system with [size_t] of [bits] bits and pages of 4096 bytes, where
    every file but "missing" opens, has [size] bytes according to [fstat]
    and answers [answers] to [read]. *)
Definition example_os (bits size : Z) (answers : list read_result) : os := {|
  os_size_bits := bits;
  os_pagesize := 4096;
  os_open := λ path, if String.eqb path "missing" then inl ENOENT else inr 3%N;
  os_fstat := λ _, inr size;
  os_mmap := λ _ _, inr 1048576%N;
  os_munmap := λ _ _, None;
  os_read := λ _ _, answers;
  os_close := λ _, None
|}.

(** A stand-in for SHA-256 in the examples: 32 copies of the first byte
    of the message. *)
Definition example_sha256 (m : list byte) : vec byte 32 :=
  Vector.const (default "0"%byte (head m)) 32.

Definition example_state : state := {| errno := 0; trace := [] |}.

(** The encodings of 32 bytes "a" and of 32 bytes "b". *)
Definition hex_aa : string :=
  "6161616161616161616161616161616161616161616161616161616161616161".
Definition hex_bb : string :=
  "6262626262626262626262626262626262626262626262626262626262626262".

Definition example_entry (file : string) (sha256 : option string)
  : xbps_object :=
  XDictionary
    (match sha256 with
     | Some h => <["file" := XString file]> (<["sha256" := XString h]> ∅)
     | None => <["file" := XString file]> ∅
     end).

(** Two entries for "etc/passwd" with different digests, and an entry
    without digest. *)
Definition example_files : list xbps_object :=
  [example_entry "etc/passwd" (Some hex_aa);
   example_entry "etc/passwd" (Some hex_bb);
   example_entry "etc/group" None].

Definition example_dictionary : gmap string xbps_object :=
  <["files" := XArray example_files]> ∅.

(** ** Further notions *)

(** A digit of the lower-case hexadecimal notation: 0 to 9, a to f. *)
Definition is_lower_hex (c : ascii) : Prop :=
  let n := Z.of_N (N_of_ascii c) in 48 ≤ n ≤ 57 ∨ 97 ≤ n ≤ 102.

(** Every failing call of the system leaves a code other than 0 in
    [errno], as POSIX has it. *)
Definition os_errors_nonzero (OS : os) : Prop :=
  (∀ path e, os_open OS path = inl e → e ≠ 0)
  ∧ (∀ fd count e, RError e ∈ os_read OS fd count → e ≠ 0)
  ∧ (∀ fd e, os_close OS fd = Some e → e ≠ 0).

(** The value [xbps_file_sha256_check] returns in a build with [NDEBUG],
    read off the answers of the system: the code of a failing [open], the
    value of [errno] after a failing [read] and the [close] that follows
    it, or the outcome of the comparison. *)
Definition check_result (OS : os) (SHA256 : list byte → vec byte 32)
    (file sha256 : string) : Z :=
  match os_open OS file with
  | inl e => e
  | inr fd =>
      match file_contents (os_read OS (Z.of_N fd) sizeof_buf) with
      | inl e => default e (os_close OS (Z.of_N fd))
      | inr m =>
          if encode_then_compare sha256 (SHA256_Final SHA256 m) then 0
          else ERANGE
      end
  end.

(** A system like [example_os bits size []] on which [mmap] fails with
    [ENOMEM] and [munmap] with [EINVAL]. *)
Definition example_os_no_memory (bits size : Z) : os := {|
  os_size_bits := bits;
  os_pagesize := 4096;
  os_open := λ _, inr 3%N;
  os_fstat := λ _, inr size;
  os_mmap := λ _ _, inl 12;
  os_munmap := λ _ _, Some EINVAL;
  os_read := λ _ _, [];
  os_close := λ _, None
|}.

(** The reads of a descriptor end: after chunks that are not empty the
    system answers an empty read (end of file) or a failing one. *)
Definition reads_end (answers : list read_result) : Prop :=
  ∃ chunks last rest,
    answers = (RBytes <$> chunks) ++ last :: rest
    ∧ Forall (λ c : list byte, c ≠ []) chunks
    ∧ (last = RBytes [] ∨ ∃ e, last = RError e).

(** What a process may read of the mapping that
    [mmap(NULL, len, PROT_READ, MAP_PRIVATE, fd, 0)] makes of a file of
    [size] bytes, with pages of [p] bytes (mmap(2)): the offsets below
    [len] in the pages that hold a byte of the file; what is left of the
    last of these pages reads as zero.  A page of the mapping that lies
    wholly past the end of the file has nothing behind it, and an access
    to it raises SIGBUS. *)
Definition file_mapping_readable (p size len offset : Z) : bool :=
  (0 <=? offset) && (offset <? len) && (offset <? round_up size p).

(** A collection whose first entry has a digest and no file name, before
    an entry for "etc/passwd". *)
Definition example_headless_dictionary : gmap string xbps_object :=
  <["files" := XArray [XDictionary (<["sha256" := XString hex_bb]> ∅);
                       example_entry "etc/passwd" (Some hex_aa)]]> ∅.

(** ** Tactics *)

(** Unfolds the monad and the system calls of a run. *)
Ltac run_M :=
  unfold open, fstat, close, mmap, munmap, read, xbps_xasprintf, free, lift,
    get_errno, set_errno, emit, mbind, M_bind, mret, M_ret in *;
  simpl in *.

(** * Properties *)

(** ** The embedding at concrete inputs *)

Example digest2string_bytes :
  digest2string [x00; xff; x1a; xc4] 4 = Ok "00ff1ac4"%string.
Proof. reflexivity. Qed.

(** Reading more bytes than the buffer holds. *)
Example digest2string_past_the_end :
  digest2string [x00; xff] 3 = Undef.
Proof. reflexivity. Qed.

(** Upper-case digits do not compare equal. *)
Example sha256_digest_compare_upper_case :
  sha256_digest_compare true
    "ABABABABABABABABABABABABABABABABABABABABABABABABABABABABABABABAB" 64
    (replicate 32 xab) 32 = Ok false
  ∧ sha256_digest_compare true
      "abababababababababababababababababababababababababababababababab" 64
      (replicate 32 xab) 32 = Ok true.
Proof. split; reflexivity. Qed.

(** A string of odd length ends the loop at the terminator, which is no
    hexadecimal digit. *)
Example sha256_digest_compare_loop_odd :
  sha256_digest_compare_loop "616" [x61; x61] = Ok false.
Proof. reflexivity. Qed.

(** An object without "file" leaves [curfile] as it was: [NULL] at the
    first object, the name of the previous object later on. *)
Example file_hash_dictionary_loop_null_curfile :
  file_hash_dictionary_loop "etc/passwd" [XDictionary ∅] None = Undef.
Proof. reflexivity. Qed.

Example file_hash_dictionary_loop_stale_curfile :
  file_hash_dictionary_loop "etc/passwd"
    [example_entry "etc/group" None;
     XDictionary (<["sha256" := XString hex_bb]> ∅);
     example_entry "etc/passwd" (Some hex_aa)] None
  = Ok (Some hex_aa).
Proof. vm_compute. reflexivity. Qed.

(** A tracked file that is missing on disk: [open] fails with [ENOENT],
    the verification returns 1. *)
Example xbps_file_hash_check_dictionary_missing_file :
  retval (xbps_file_hash_check_dictionary true (example_os 64 0 [])
            example_sha256 {| rootdir := "/" |}
            (<["files" := XArray [example_entry "missing" (Some hex_aa)]]> ∅)
            "files" "missing" example_state)
  = Some 1.
Proof. vm_compute. reflexivity. Qed.

(** ** The monad *)

Lemma logged_logged s evs1 evs2 :
  logged (logged s evs1) evs2 = logged s (evs1 ++ evs2).
Proof. unfold logged. simpl. by rewrite <- app_assoc. Qed.

Section syscalls.

Variable OS : os.

Lemma open_ok {A} file fd (f : Z → M A) st :
  os_open OS file = inr fd →
  (open OS file ≫= f) st = f (Z.of_N fd) (logged st [EvOpen file]).
Proof. intros H. unfold open, mbind, M_bind, emit. simpl. by rewrite H. Qed.

Lemma open_fails {A} file e (f : Z → M A) st :
  os_open OS file = inl e →
  (open OS file ≫= f) st
  = f (-1) {| errno := e; trace := trace st ++ [EvOpen file] |}.
Proof. intros H. unfold open, mbind, M_bind, emit. simpl. by rewrite H. Qed.

Lemma fstat_ok {A} fd size (f : Z * Z → M A) st :
  os_fstat OS fd = inr size →
  (fstat OS fd ≫= f) st = f (0, size) (logged st [EvFstat fd]).
Proof. intros H. unfold fstat, mbind, M_bind, emit. simpl. by rewrite H. Qed.

End syscalls.

(** ** Page arithmetic *)

Lemma land_mask_mod (x k : Z) : 0 ≤ k → Z.land x (2 ^ k - 1) = x mod 2 ^ k.
Proof.
  intros Hk. rewrite <- Z.land_ones by done. f_equal.
  rewrite Z.ones_equiv. lia.
Qed.

Lemma land_not_mask (x k w : Z) :
  0 ≤ k ≤ w → 0 ≤ x < 2 ^ w →
  Z.land x (Z.lnot (2 ^ k - 1) mod 2 ^ w) = x / 2 ^ k * 2 ^ k.
Proof.
  intros Hk Hx.
  rewrite <- (Z.land_ones (Z.lnot _)) by lia.
  rewrite (Z.land_comm (Z.lnot _)), Z.land_assoc, (Z.land_ones x) by lia.
  rewrite (Z.mod_small x) by lia.
  rewrite <- Z.ldiff_land.
  replace (2 ^ k - 1) with (Z.ones k) by (rewrite Z.ones_equiv; lia).
  rewrite Z.ldiff_ones_r by lia.
  rewrite Z.shiftl_mul_pow2, Z.shiftr_div_pow2 by lia. reflexivity.
Qed.

Lemma round_up_bounds s p : 0 < p → s ≤ round_up s p < s + p.
Proof.
  intros Hp. unfold round_up.
  pose proof (Z.mod_pos_bound (s + (p - 1)) p Hp).
  pose proof (Z.div_mod (s + (p - 1)) p). lia.
Qed.

Lemma round_up_multiple s p : 0 < p → round_up s p mod p = 0.
Proof. intros Hp. unfold round_up. apply Z.mod_mul. lia. Qed.

Lemma round_up_aligned s p : 0 < p → s mod p = 0 → round_up s p = s.
Proof.
  intros Hp Hs. unfold round_up.
  apply Z.mod_divide in Hs as [q ->]; [|lia].
  replace (q * p + (p - 1)) with ((p - 1) + q * p) by lia.
  rewrite Z.div_add, Z.div_small by lia. lia.
Qed.

Section page_arith.

Variables (OS : os) (k : Z).
Hypothesis Hpage : page_size_ok OS k.

Local Abbreviation p := (os_pagesize OS).
Local Abbreviation w := (os_size_bits OS).

Lemma pagesize_pos : 0 < p.
Proof. destruct Hpage as [Hp ?]. rewrite Hp. lia. Qed.

Lemma size_modulus_split : size_modulus OS = 2 * 2 ^ (w - 1).
Proof.
  destruct Hpage as [_ ?]. unfold size_modulus.
  rewrite <- Z.pow_succ_r by lia. f_equal. lia.
Qed.

Lemma pagesize_le_half : p ≤ 2 ^ (w - 1).
Proof.
  destruct Hpage as [Hp ?]. rewrite Hp.
  apply Z.pow_le_mono_r; lia.
Qed.

Lemma SSIZE_MAX_eq : SSIZE_MAX OS = 2 ^ (w - 1) - 1.
Proof. reflexivity. Qed.

Lemma to_size_t_small x : 0 ≤ x < size_modulus OS → to_size_t OS x = x.
Proof. intros. unfold to_size_t. by apply Z.mod_small. Qed.

Lemma pgsize_eq : to_size_t OS (os_pagesize OS) = p.
Proof.
  apply to_size_t_small. pose proof pagesize_pos. pose proof pagesize_le_half.
  rewrite size_modulus_split. lia.
Qed.

Lemma pgmask_eq : to_size_t OS (p - 1) = p - 1.
Proof.
  apply to_size_t_small. pose proof pagesize_pos. pose proof pagesize_le_half.
  rewrite size_modulus_split. lia.
Qed.

(** The mask expression on a [size_t] value [x]. *)
Lemma mapsize_eq x :
  0 ≤ x < size_modulus OS →
  Z.land x (to_size_t OS (Z.lnot (p - 1))) = x / p * p.
Proof.
  intros Hx. destruct Hpage as [Hp ?]. rewrite Hp.
  unfold to_size_t, size_modulus in *. apply land_not_mask; lia.
Qed.

Lemma mapsize_round_up s :
  0 ≤ s ≤ SSIZE_MAX OS - 1 →
  Z.land (to_size_t OS (to_size_t OS s + (p - 1)))
         (to_size_t OS (Z.lnot (p - 1)))
  = round_up s p.
Proof.
  intros Hs. rewrite SSIZE_MAX_eq in Hs.
  pose proof pagesize_pos. pose proof pagesize_le_half.
  pose proof size_modulus_split as Hm.
  rewrite (to_size_t_small s) by lia.
  rewrite (to_size_t_small (s + (p - 1))) by lia.
  rewrite mapsize_eq by lia. reflexivity.
Qed.

(** When rounding up overflows [size_t], the mask expression wraps to 0. *)
Lemma mapsize_wraps x :
  0 ≤ x < size_modulus OS → size_modulus OS ≤ round_up x p →
  Z.land (to_size_t OS (x + (p - 1))) (to_size_t OS (Z.lnot (p - 1))) = 0
  ∧ 0 < x.
Proof.
  intros Hx Hover.
  pose proof pagesize_pos. pose proof pagesize_le_half.
  pose proof size_modulus_split as Hm.
  pose proof (round_up_bounds x p ltac:(done)).
  assert (Hge : size_modulus OS ≤ x + (p - 1)).
  { unfold round_up in *.
    pose proof (Z.mod_pos_bound (x + (p - 1)) p ltac:(done)).
    pose proof (Z.div_mod (x + (p - 1)) p). lia. }
  assert (Hw : to_size_t OS (x + (p - 1)) = x + (p - 1) - size_modulus OS).
  { unfold to_size_t.
    rewrite <- (Z.mod_small (x + (p - 1) - size_modulus OS) (size_modulus OS))
      by lia.
    replace (x + (p - 1)) with
      ((x + (p - 1) - size_modulus OS) + 1 * size_modulus OS) at 1 by lia.
    by rewrite Z.mod_add by lia. }
  rewrite Hw, mapsize_eq by lia.
  rewrite Z.div_small by lia. lia.
Qed.

Lemma need_guard_eq s :
  (Z.land s (p - 1) =? 0) = bool_decide (s mod p = 0).
Proof.
  destruct Hpage as [Hp ?]. rewrite Hp.
  rewrite land_mask_mod by lia.
  case_bool_decide; [by apply Z.eqb_eq | by apply Z.eqb_neq].
Qed.

Lemma guard_request_eq s :
  0 ≤ s ≤ SSIZE_MAX OS - 1 → s mod p = 0 →
  to_size_t OS (round_up s p + p) = s + p.
Proof.
  intros Hs Hal. rewrite SSIZE_MAX_eq in Hs.
  pose proof pagesize_pos. pose proof pagesize_le_half.
  pose proof size_modulus_split as Hm.
  rewrite round_up_aligned by done.
  apply to_size_t_small. lia.
Qed.

End page_arith.

(** ** xbps_mmap_file *)

Section mmap_file.

Variables (OS : os) (k : Z).
Hypothesis Hpage : page_size_ok OS k.

Variables (file : string) (fd : N) (s : Z).
Hypothesis Hopen : os_open OS file = inr fd.
Hypothesis Hfstat : os_fstat OS (Z.of_N fd) = inr s.

Local Abbreviation p := (os_pagesize OS).

(** Up to the mapping call, for a size that passes both guards. *)
Lemma xbps_mmap_file_sized st :
  0 ≤ s ≤ SSIZE_MAX OS - 1 →
  xbps_mmap_file OS file st
  = (mf ← mmap OS (guarded_length s p) (Z.of_N fd);
     _ ← close OS (Z.of_N fd);
     if mf =? MAP_FAILED then _ ← munmap OS mf (round_up s p); mret None
     else mret (Some (mf, round_up s p, s)))
      (logged st [EvOpen file; EvFstat (Z.of_N fd)]).
Proof.
  intros Hs. unfold xbps_mmap_file.
  rewrite (pgsize_eq OS k Hpage), (pgmask_eq OS k Hpage).
  rewrite (open_ok OS file fd) by done.
  replace (Z.of_N fd =? -1) with false by (symmetry; apply Z.eqb_neq; lia).
  rewrite (fstat_ok OS _ s) by done. rewrite logged_logged. simpl app.
  cbv beta iota. change (0 =? -1) with false. cbv iota.
  replace (s >? SSIZE_MAX OS - 1) with false
    by (symmetry; rewrite Z.gtb_ltb; apply Z.ltb_ge; lia).
  rewrite (mapsize_round_up OS k Hpage) by done.
  pose proof (round_up_bounds s p (pagesize_pos OS k Hpage)).
  rewrite (to_size_t_small OS s);
    [|pose proof (size_modulus_split OS k Hpage);
      rewrite (SSIZE_MAX_eq OS) in Hs; lia].
  replace (round_up s (os_pagesize OS) <? s) with false
    by (symmetry; apply Z.ltb_ge; lia).
  rewrite (need_guard_eq OS k Hpage).
  unfold guarded_length. case_bool_decide as Hal.
  - rewrite decide_True by done.
    rewrite (guard_request_eq OS k Hpage) by done.
    by rewrite (round_up_aligned s p (pagesize_pos OS k Hpage)).
  - by rewrite decide_False.
Qed.

(** A size that fails the first guard. *)
Lemma xbps_mmap_file_too_large st :
  SSIZE_MAX OS - 1 < s →
  xbps_mmap_file OS file st
  = (_ ← close OS (Z.of_N fd); mret None)
      (logged st [EvOpen file; EvFstat (Z.of_N fd)]).
Proof.
  intros Hs. unfold xbps_mmap_file.
  rewrite (open_ok OS file fd) by done.
  replace (Z.of_N fd =? -1) with false by (symmetry; apply Z.eqb_neq; lia).
  rewrite (fstat_ok OS _ s) by done. rewrite logged_logged. simpl app.
  cbv beta iota. change (0 =? -1) with false. cbv iota.
  replace (s >? SSIZE_MAX OS - 1) with true
    by (symmetry; rewrite Z.gtb_ltb; apply Z.ltb_lt; lia).
  reflexivity.
Qed.

(** A size that passes the first guard and fails the second. *)
Lemma xbps_mmap_file_overflow st :
  s ≤ SSIZE_MAX OS - 1 →
  size_modulus OS ≤ round_up (to_size_t OS s) p →
  xbps_mmap_file OS file st
  = (_ ← close OS (Z.of_N fd); mret None)
      (logged st [EvOpen file; EvFstat (Z.of_N fd)]).
Proof.
  intros Hs Hover. unfold xbps_mmap_file.
  rewrite (pgsize_eq OS k Hpage), (pgmask_eq OS k Hpage).
  rewrite (open_ok OS file fd) by done.
  replace (Z.of_N fd =? -1) with false by (symmetry; apply Z.eqb_neq; lia).
  rewrite (fstat_ok OS _ s) by done. rewrite logged_logged. simpl app.
  cbv beta iota. change (0 =? -1) with false. cbv iota.
  replace (s >? SSIZE_MAX OS - 1) with false
    by (symmetry; rewrite Z.gtb_ltb; apply Z.ltb_ge; lia).
  assert (Hx : 0 ≤ to_size_t OS s < size_modulus OS).
  { apply Z.mod_pos_bound. rewrite (size_modulus_split OS k Hpage).
    destruct Hpage as [_ ?].
    assert (0 < 2 ^ (os_size_bits OS - 1)) by (apply Z.pow_pos_nonneg; lia).
    lia. }
  destruct (mapsize_wraps OS k Hpage _ Hx Hover) as [-> Hpos].
  replace (0 <? to_size_t OS s) with true
    by (symmetry; by apply Z.ltb_lt).
  reflexivity.
Qed.

End mmap_file.

(** What a successful call has done and returns. *)
Lemma xbps_mmap_file_mapped OS k file fd s st mmf mmflen filelen st' :
  page_size_ok OS k →
  os_open OS file = inr fd →
  os_fstat OS (Z.of_N fd) = inr s →
  0 ≤ s →
  xbps_mmap_file OS file st = Ok (Some (mmf, mmflen, filelen), st') →
  let p := os_pagesize OS in
  mmflen = round_up s p ∧ filelen = s ∧
  trace st' = trace st ++
    [EvOpen file; EvFstat (Z.of_N fd);
     EvMmap (guarded_length s p) (Z.of_N fd);
     EvClose (Z.of_N fd)].
Proof.
  intros Hpage Hopen Hfstat Hs Hrun p.
  destruct (decide (s ≤ SSIZE_MAX OS - 1)) as [Hle|Hgt].
  - rewrite (xbps_mmap_file_sized OS k Hpage file fd s Hopen Hfstat) in Hrun
      by lia.
    fold p in Hrun. run_M.
    destruct (os_mmap OS _ (Z.of_N fd)) as [e|a] eqn:Hmmap; simpl in Hrun.
    + destruct (os_close OS _), (os_munmap OS _ _); discriminate.
    + replace (Z.of_N a =? MAP_FAILED) with false in Hrun
        by (symmetry; apply Z.eqb_neq; unfold MAP_FAILED; lia).
      destruct (os_close OS _); simpl in Hrun; injection Hrun as <- <- <- <-;
        simpl; by rewrite <- !app_assoc.
  - rewrite (xbps_mmap_file_too_large OS file fd s Hopen Hfstat) in Hrun by lia.
    run_M. destruct (os_close OS _); discriminate.
Qed.

(** X19: a file of size [s] that is mapped with page size [p] gets the
    mapped length [round_up s p] and the logical length [s]; the length
    asked of [mmap] is one page more than [round_up s p] when [s] is a
    multiple of [p], and [round_up s p] itself when it is not. *)
Theorem X19_mmap_lengths_and_guard_rule
    OS k file fd s st mmf mmflen filelen st' :
  page_size_ok OS k →
  os_open OS file = inr fd →
  os_fstat OS (Z.of_N fd) = inr s →
  0 ≤ s →
  xbps_mmap_file OS file st = Ok (Some (mmf, mmflen, filelen), st') →
  let p := os_pagesize OS in
  mmflen = round_up s p ∧ filelen = s ∧
  ∃ len,
    trace st' = trace st ++ [EvOpen file; EvFstat (Z.of_N fd);
                             EvMmap len (Z.of_N fd); EvClose (Z.of_N fd)]
    ∧ (s mod p = 0 → len = round_up s p + p)
    ∧ (s mod p ≠ 0 → len = round_up s p).
Proof.
  intros Hpage Hopen Hfstat Hs Hrun p.
  destruct (xbps_mmap_file_mapped _ _ _ _ _ _ _ _ _ _ Hpage Hopen Hfstat Hs Hrun)
    as (-> & -> & Htr). fold p in Htr |- *. unfold guarded_length in Htr.
  split; [done|]. split; [done|]. eexists. split; [exact Htr|].
  case_decide as Hal; split; intros; done.
Qed.

(** The extra page of a file whose size is a multiple of the page size
    lies wholly past the end of the file: the byte at the offset of the
    size is in the mapping and cannot be read. *)
Remark guard_page_past_end_of_file p s :
  0 < p → 0 ≤ s → s mod p = 0 →
  s < guarded_length s p
  ∧ file_mapping_readable p s (guarded_length s p) s = false.
Proof.
  intros Hp Hs Hal. unfold file_mapping_readable, guarded_length.
  rewrite decide_True, (round_up_aligned s p Hp Hal) by done.
  split; [lia|]. rewrite Z.ltb_irrefl. apply andb_false_r.
Qed.

(** C8, at a file of one page and at the empty file, with pages of 4096
    bytes.  The call returns the lengths the claim gives, and asks [mmap]
    for one page more than the file has, on the descriptor of the file.
    That page lies wholly past the end of the file, so that the byte at
    the offset of the logical length cannot be read: the access raises
    SIGBUS, where the comment of the source and the claim promise a
    readable byte. *)
Lemma C8_guard_page_not_readable :
  xbps_mmap_file (example_os 64 4096 []) "index" example_state
  = Ok (Some (1048576, 4096, 4096),
        {| errno := 0;
           trace := [EvOpen "index"; EvFstat 3; EvMmap 8192 3; EvClose 3] |})
  ∧ file_mapping_readable 4096 4096 8192 4096 = false
  ∧ xbps_mmap_file (example_os 64 0 []) "index" example_state
    = Ok (Some (1048576, 0, 0),
          {| errno := 0;
             trace := [EvOpen "index"; EvFstat 3; EvMmap 4096 3; EvClose 3] |})
  ∧ file_mapping_readable 4096 0 4096 0 = false.
Proof. vm_compute. repeat split. Qed.

(** C9: when the size reported by [fstat] exceeds what a signed length can
    hold, or rounding it up to a page multiple overflows [size_t],
    [xbps_mmap_file] returns false; it has not called [mmap], and its last
    call closes the descriptor. *)
Theorem C9_mmap_size_guards OS k file fd s st :
  page_size_ok OS k →
  os_open OS file = inr fd →
  os_fstat OS (Z.of_N fd) = inr s →
  SSIZE_MAX OS < s
  ∨ size_modulus OS ≤ round_up (to_size_t OS s) (os_pagesize OS) →
  ∃ st',
    xbps_mmap_file OS file st = Ok (None, st')
    ∧ trace st' = trace st ++ [EvOpen file; EvFstat (Z.of_N fd);
                               EvClose (Z.of_N fd)].
Proof.
  intros Hpage Hopen Hfstat Hbad.
  assert (Hrun : xbps_mmap_file OS file st
                 = (_ ← close OS (Z.of_N fd); mret None)
                     (logged st [EvOpen file; EvFstat (Z.of_N fd)])).
  { destruct (decide (s ≤ SSIZE_MAX OS - 1)) as [Hle|Hgt].
    - destruct Hbad as [?|Hover]; [lia|].
      by apply (xbps_mmap_file_overflow OS k Hpage file fd s).
    - apply (xbps_mmap_file_too_large OS file fd s); [done..|lia]. }
  rewrite Hrun. run_M.
  destruct (os_close OS _); eexists; (split; [reflexivity|]); simpl;
    by rewrite <- app_assoc.
Qed.

(** C10: for a file whose size [s] is a multiple of the page size, the
    empty file included, [mmap] is asked for [round_up s p + p] bytes while
    the mapped length returned is [round_up s p]: the guard page lies
    beyond the returned length, and an empty file yields the lengths 0
    and 0. *)
Theorem C10_guard_page_not_in_mapped_length
    OS k file fd s st mmf mmflen filelen st' :
  page_size_ok OS k →
  os_open OS file = inr fd →
  os_fstat OS (Z.of_N fd) = inr s →
  0 ≤ s →
  s mod os_pagesize OS = 0 →
  xbps_mmap_file OS file st = Ok (Some (mmf, mmflen, filelen), st') →
  let p := os_pagesize OS in
  trace st' = trace st ++ [EvOpen file; EvFstat (Z.of_N fd);
                           EvMmap (round_up s p + p) (Z.of_N fd);
                           EvClose (Z.of_N fd)]
  ∧ mmflen = round_up s p
  ∧ filelen = s
  ∧ mmflen < round_up s p + p
  ∧ (s = 0 → mmflen = 0 ∧ filelen = 0).
Proof.
  intros Hpage Hopen Hfstat Hs Hal Hrun p.
  destruct (xbps_mmap_file_mapped _ _ _ _ _ _ _ _ _ _ Hpage Hopen Hfstat Hs Hrun)
    as (-> & -> & Htr). fold p in Htr, Hal |- *.
  pose proof (pagesize_pos OS k Hpage) as Hp. fold p in Hp.
  unfold guarded_length in Htr. rewrite decide_True in Htr by done.
  split; [done|]. split; [done|]. split; [done|]. split; [lia|].
  intros ->. by rewrite round_up_aligned.
Qed.

(** ** Hexadecimal digests *)

Lemma digest2string_length d :
  ∃ h, digest2string d (length d) = Ok h
       ∧ String.length h = (2 * length d)%nat.
Proof.
  induction d as [|b d (h & Hh & Hlen)]; simpl.
  - by exists EmptyString.
  - rewrite Hh. simpl. eexists. split; [reflexivity|]. simpl. lia.
Qed.

(** On a string of twice the digest's length the loop decides equality
    with the encoding. *)
Lemma sha256_digest_compare_loop_spec d : ∀ s h,
  digest2string d (length d) = Ok h →
  String.length s = (2 * length d)%nat →
  sha256_digest_compare_loop s d = Ok (String.eqb h s).
Proof.
  induction d as [|b d IH]; intros s h Hh Hlen; simpl in *.
  - destruct s; [|discriminate]. by injection Hh as <-.
  - destruct s as [|c1 [|c2 s]]; simpl in Hlen; try lia.
    destruct (digest2string d (length d)) as [h'| |] eqn:Hd; try discriminate.
    simpl in Hh. injection Hh as <-. simpl.
    rewrite (Ascii.eqb_sym c1), (Ascii.eqb_sym c2).
    destruct (Ascii.eqb _ c1); simpl; [|done].
    destruct (Ascii.eqb _ c2); simpl; [|done].
    apply IH; [done|lia].
Qed.

Lemma encode_then_compare_length s d :
  length d = XBPS_SHA256_DIGEST_SIZE →
  encode_then_compare s d = true → String.length s = 64%nat.
Proof.
  intros Hd. unfold encode_then_compare. rewrite <- Hd.
  destruct (digest2string_length d) as (h & -> & Hlen).
  intros ->%String.eqb_eq. rewrite Hlen, Hd. reflexivity.
Qed.

Lemma encode_then_compare_true s d :
  length d = XBPS_SHA256_DIGEST_SIZE →
  encode_then_compare s d = true
  ↔ digest2string d XBPS_SHA256_DIGEST_SIZE = Ok s.
Proof.
  intros Hd. unfold encode_then_compare. rewrite <- Hd.
  destruct (digest2string_length d) as (h & -> & _).
  rewrite String.eqb_eq. split; [by intros ->|by intros [= ->]].
Qed.

(** With the lengths the assertions ask for, whatever the build. *)
Lemma sha256_digest_compare_sized NDEBUG s d :
  String.length s = 64%nat → length d = XBPS_SHA256_DIGEST_SIZE →
  sha256_digest_compare NDEBUG s 64 d XBPS_SHA256_DIGEST_SIZE
  = Ok (encode_then_compare s d).
Proof.
  intros Hs Hd. destruct (digest2string_length d) as (h & Hh & _).
  unfold sha256_digest_compare, encode_then_compare, assert.
  rewrite <- Hd at 1. rewrite Hh.
  destruct NDEBUG; simpl; apply sha256_digest_compare_loop_spec;
    try done; rewrite Hs, Hd; reflexivity.
Qed.

(** In a build with [NDEBUG], whatever the length of the string. *)
Lemma sha256_digest_compare_production s d :
  length d = XBPS_SHA256_DIGEST_SIZE →
  sha256_digest_compare true s (String.length s) d XBPS_SHA256_DIGEST_SIZE
  = Ok (encode_then_compare s d).
Proof.
  intros Hd. destruct (decide (String.length s = 64%nat)) as [Hs|Hs].
  - rewrite Hs. by apply sha256_digest_compare_sized.
  - unfold sha256_digest_compare, assert. simpl.
    replace (String.length s =? 64)%nat with false
      by (symmetry; by apply Nat.eqb_neq).
    simpl. f_equal. symmetry. apply not_true_is_false.
    intros Heq. by apply Hs, (encode_then_compare_length s d).
Qed.

(** C2: the encoding of a digest of 32 bytes has 64 characters, and the
    comparison of that encoding with the digest succeeds. *)
Theorem C2_encode_compare_roundtrip NDEBUG (d : list byte) :
  length d = 32%nat →
  ∃ h, digest2string d 32 = Ok h
       ∧ String.length h = 64%nat
       ∧ sha256_digest_compare NDEBUG h (String.length h) d 32 = Ok true.
Proof.
  intros Hd. destruct (digest2string_length d) as (h & Hh & Hlen).
  rewrite Hd in Hh, Hlen. exists h. split; [done|]. split; [done|].
  rewrite Hlen. change (2 * 32)%nat with 64%nat.
  pose proof (sha256_digest_compare_sized NDEBUG h d Hlen Hd) as Hcmp.
  unfold XBPS_SHA256_DIGEST_SIZE in Hcmp. rewrite Hcmp.
  f_equal. by apply encode_then_compare_true.
Qed.

(** C3: on a string of 64 characters and a digest of 32 bytes the
    comparison loop returns what encoding the digest and comparing the two
    strings returns; it returns true exactly when [digest2string] yields
    the string. *)
Theorem C3_compare_refines_encode_then_compare NDEBUG s (d : list byte) :
  String.length s = 64%nat →
  length d = 32%nat →
  sha256_digest_compare NDEBUG s 64 d 32 = Ok (encode_then_compare s d)
  ∧ (sha256_digest_compare NDEBUG s 64 d 32 = Ok true
     ↔ digest2string d 32 = Ok s).
Proof.
  intros Hs Hd.
  pose proof (sha256_digest_compare_sized NDEBUG s d Hs Hd) as Hcmp.
  pose proof (encode_then_compare_true s d Hd) as Henc.
  unfold XBPS_SHA256_DIGEST_SIZE in Hcmp, Henc.
  split; [done|]. rewrite Hcmp, <- Henc.
  split; [by intros [= ->]|by intros ->].
Qed.

(** ** Hashing a file *)

Lemma M_bind_ok {A B} (m : M A) (f : A → M B) st a st' :
  m st = Ok (a, st') → (m ≫= f) st = f a st'.
Proof. intros H. unfold mbind, M_bind. by rewrite H. Qed.

Section hashing.

Variables (NDEBUG : bool) (OS : os) (SHA256 : list byte → vec byte 32).

(** The read loop feeds the context the contents of the file, or stops
    at the first failing [read] with its code in [errno]. *)
Lemma sha256_read_loop_run fd answers : ∀ ctx st,
  ∃ len ctx' st' tr,
    sha256_read_loop fd answers ctx st = Ok ((len, ctx'), st')
    ∧ trace st' = trace st ++ tr
    ∧ Forall is_descriptor_io tr
    ∧ match file_contents answers with
      | inl e => len = -1 ∧ errno st' = e
      | inr m => len = 0 ∧ ctx' = ctx ++ m ∧ errno st' = errno st
      end.
Proof.
  induction answers as [|[[|b buf]|e] answers IH]; intros ctx st.
  - exists 0, ctx, (logged st [EvRead fd sizeof_buf]), [EvRead fd sizeof_buf].
    simpl. rewrite app_nil_r. repeat split; by repeat constructor.
  - exists 0, ctx, (logged st [EvRead fd sizeof_buf]), [EvRead fd sizeof_buf].
    simpl. rewrite app_nil_r. repeat split; by repeat constructor.
  - destruct (IH (ctx ++ b :: buf) (logged st [EvRead fd sizeof_buf]))
      as (len & ctx' & st' & tr & Hrun & Htr & Hio & Hres).
    exists len, ctx', st', (EvRead fd sizeof_buf :: tr).
    split; [|split; [|split]].
    + cbn [sha256_read_loop].
      unfold read, emit, mbind, M_bind, mret, M_ret. cbn beta iota.
      replace (Z.of_nat (length (b :: buf)) >? 0) with true by done.
      unfold SHA256_Update. rewrite Nat2Z.id, take_ge by done. exact Hrun.
    + rewrite Htr. simpl. by rewrite <- app_assoc.
    + by constructor.
    + cbn [file_contents].
      destruct (file_contents answers) as [e|m]; [done|].
      destruct Hres as (-> & -> & ->). by rewrite <- app_assoc.
  - exists (-1), ctx,
      {| errno := e; trace := trace st ++ [EvRead fd sizeof_buf] |},
      [EvRead fd sizeof_buf].
    repeat split; by repeat constructor.
Qed.

(** What [xbps_file_sha256_raw] does on a buffer of 32 bytes. *)
Lemma xbps_file_sha256_raw_run file st :
  ∃ r st' tr,
    xbps_file_sha256_raw NDEBUG OS SHA256 XBPS_SHA256_DIGEST_SIZE file st
    = Ok (r, st')
    ∧ trace st' = trace st ++ EvOpen file :: tr
    ∧ Forall is_descriptor_io tr
    ∧ match os_open OS file with
      | inl e => r = None ∧ errno st' = e
      | inr fd =>
          match file_contents (os_read OS (Z.of_N fd) sizeof_buf) with
          | inl e =>
              r = None ∧ errno st' = default e (os_close OS (Z.of_N fd))
          | inr m =>
              r = Some (SHA256_Final SHA256 m)
              ∧ errno st' = default (errno st) (os_close OS (Z.of_N fd))
          end
      end.
Proof.
  unfold xbps_file_sha256_raw.
  assert (Hassert : ∀ s, lift (assert NDEBUG true) s = Ok (tt, s))
    by (intros s; unfold lift, assert; by destruct NDEBUG).
  change (XBPS_SHA256_DIGEST_SIZE <=? XBPS_SHA256_DIGEST_SIZE)%nat with true.
  rewrite (M_bind_ok _ _ st tt st) by apply Hassert.
  change (XBPS_SHA256_DIGEST_SIZE <? XBPS_SHA256_DIGEST_SIZE)%nat with false.
  cbv iota.
  destruct (os_open OS file) as [e|fd] eqn:Hopen.
  - rewrite (open_fails OS file e) by done.
    change (-1 <? 0) with true. cbv iota.
    eexists _, _, []. split; [reflexivity|]. by repeat split.
  - rewrite (open_ok OS file fd) by done.
    replace (Z.of_N fd <? 0) with false by (symmetry; apply Z.ltb_ge; lia).
    cbv iota.
    destruct (sha256_read_loop_run (Z.of_N fd)
                (os_read OS (Z.of_N fd) sizeof_buf) SHA256_Init
                (logged st [EvOpen file]))
      as (len & ctx' & st1 & tr & Hrun & Htr & Hio & Hres).
    rewrite (M_bind_ok _ _ _ _ _ Hrun).
    exists (if len =? -1 then None else Some (SHA256_Final SHA256 ctx')),
      {| errno := default (errno st1) (os_close OS (Z.of_N fd));
         trace := trace st1 ++ [EvClose (Z.of_N fd)] |},
      (tr ++ [EvClose (Z.of_N fd)]).
    split; [|split; [|split]].
    + run_M. by destruct (os_close OS _), (len =? -1).
    + simpl. rewrite Htr. simpl. by rewrite <- !app_assoc.
    + apply Forall_app. split; [done|]. by repeat constructor.
    + simpl. destruct (file_contents _) as [e|m].
      * destruct Hres as [-> ->]. done.
      * destruct Hres as (-> & -> & ->). done.
Qed.

End hashing.


(** In a build without [NDEBUG] the assertion of [sha256_digest_compare]
    aborts on an expected string that has not 64 characters, once the
    file was hashed. *)
Remark xbps_file_sha256_check_debug_aborts OS SHA256 file sha256 st fd m :
  os_open OS file = inr fd →
  file_contents (os_read OS (Z.of_N fd) sizeof_buf) = inr m →
  String.length sha256 ≠ 64%nat →
  xbps_file_sha256_check false OS SHA256 file sha256 st = Abort.
Proof.
  intros Hopen Hm Hlen.
  destruct (xbps_file_sha256_raw_run false OS SHA256 file st)
    as (r & st' & tr & Hrun & _ & _ & Hres).
  rewrite Hopen, Hm in Hres. destruct Hres as [-> _].
  unfold xbps_file_sha256_check. rewrite (M_bind_ok _ _ _ _ _ Hrun).
  unfold mbind, M_bind, lift, sha256_digest_compare, assert. simpl.
  replace (String.length sha256 =? 64)%nat with false
    by (symmetry; by apply Nat.eqb_neq).
  reflexivity.
Qed.

(** ** Lookup of the expected digest *)

Lemma stored_unset {A} (got : option A) : stored got None = got.
Proof. by destruct got. Qed.

Section lookup.

Variable file : string.

Lemma file_hash_dictionary_loop_found : ∀ items curfile i obj,
  curfile_usable items curfile →
  curfile ≠ Some file →
  items !! i = Some obj →
  entry_file obj = Some file →
  (∀ j obj', (j < i)%nat → items !! j = Some obj' →
             entry_file obj' ≠ Some file) →
  file_hash_dictionary_loop file items curfile
  = Ok (xbps_dictionary_get_cstring_nocopy obj "sha256").
Proof.
  induction items as [|o items IH]; intros curfile i obj Hus Hcur Hi Hobj Hbefore;
    [done|].
  cbn [file_hash_dictionary_loop]. fold (entry_file o).
  destruct i as [|i]; simpl in Hi.
  - injection Hi as ->. rewrite Hobj. simpl.
    by rewrite String.eqb_refl, stored_unset.
  - assert (Ho : entry_file o ≠ Some file)
      by (apply (Hbefore 0%nat); [lia|done]).
    assert (Hst : ∃ c, stored (entry_file o) curfile = Some c ∧ c ≠ file).
    { destruct (entry_file o) as [c|] eqn:Heo; simpl.
      - exists c. split; [done|congruence].
      - destruct curfile as [c|]; [exists c; split; [done|congruence]|].
        specialize (Hus eq_refl). simpl in Hus. rewrite Heo in Hus.
        by destruct Hus. }
    destruct Hst as (c & -> & Hc).
    replace (String.eqb file c) with false
      by (symmetry; apply String.eqb_neq; congruence).
    apply (IH (Some c) i); try done; [congruence|].
    intros j obj' Hj. apply (Hbefore (S j)). lia.
Qed.

Lemma file_hash_dictionary_loop_not_found : ∀ items curfile,
  curfile_usable items curfile →
  curfile ≠ Some file →
  (∀ obj, obj ∈ items → entry_file obj ≠ Some file) →
  file_hash_dictionary_loop file items curfile = Ok None.
Proof.
  induction items as [|o items IH]; intros curfile Hus Hcur Hall; [done|].
  cbn [file_hash_dictionary_loop]. fold (entry_file o).
  assert (Ho : entry_file o ≠ Some file) by (apply Hall; left).
  assert (Hst : ∃ c, stored (entry_file o) curfile = Some c ∧ c ≠ file).
  { destruct (entry_file o) as [c|] eqn:Heo; simpl.
    - exists c. split; [done|congruence].
    - destruct curfile as [c|]; [exists c; split; [done|congruence]|].
      specialize (Hus eq_refl). simpl in Hus. rewrite Heo in Hus.
      by destruct Hus. }
  destruct Hst as (c & -> & Hc).
  replace (String.eqb file c) with false
    by (symmetry; apply String.eqb_neq; congruence).
  apply IH; try done; [congruence|].
  intros obj Hin. apply Hall. by right.
Qed.

End lookup.

(** The lookup changes the state only when it finds no digest, and then
    only [errno], which it sets to [ENOENT]. *)
Lemma file_hash_dictionary_state d key file st r :
  retval (file_hash_dictionary d key file st) = Some r →
  file_hash_dictionary d key file st
  = Ok (r, if r is Some _ then st
           else {| errno := ENOENT; trace := trace st |}).
Proof.
  unfold file_hash_dictionary.
  destruct (xbps_array_iter_from_dict d key) as [iter|]; run_M.
  - destruct (file_hash_dictionary_loop file iter None) as [[h|]| |];
      simpl; intros [= <-]; done.
  - by intros [= <-].
Qed.

(** The one case the two lemmas above leave out: on an array whose first
    object has no string under "file", [strcmp] reads the [NULL]
    [curfile]. *)
Remark file_hash_dictionary_null_curfile d key file items st :
  xbps_array_iter_from_dict d key = Some items →
  ¬ first_names_file items →
  file_hash_dictionary d key file st = Undef.
Proof.
  intros Hiter Hfirst. unfold file_hash_dictionary. rewrite Hiter.
  destruct items as [|o items]; [by destruct Hfirst|].
  unfold mbind, M_bind, lift. cbn [file_hash_dictionary_loop].
  fold (entry_file o). simpl in Hfirst.
  destruct (entry_file o); [|done]. destruct Hfirst. by eexists.
Qed.

(** X18: when the key yields an array whose first object names a file,
    the lookup returns the "sha256" field of the first object of the array
    whose "file" field is the path, whatever objects follow it; the result
    is [NULL] when that object has no such field, and when no object has
    the path as its "file" field. *)
Theorem X18_first_matching_entry d key file items st :
  xbps_array_iter_from_dict d key = Some items →
  first_names_file items →
  (∀ i obj,
     items !! i = Some obj →
     entry_file obj = Some file →
     (∀ j obj', (j < i)%nat → items !! j = Some obj' →
                entry_file obj' ≠ Some file) →
     retval (file_hash_dictionary d key file st)
     = Some (xbps_dictionary_get_cstring_nocopy obj "sha256"))
  ∧ ((∀ obj, obj ∈ items → entry_file obj ≠ Some file) →
     retval (file_hash_dictionary d key file st) = Some None).
Proof.
  intros Hiter Hfirst. unfold file_hash_dictionary. rewrite Hiter. split.
  - intros i obj Hi Hobj Hbefore.
    rewrite (M_bind_ok _ _ st
               (xbps_dictionary_get_cstring_nocopy obj "sha256") st).
    + run_M. by destruct (xbps_dictionary_get_cstring_nocopy obj "sha256").
    + unfold lift.
      rewrite (file_hash_dictionary_loop_found file items None i obj);
        try done. by intros _.
  - intros Hall. rewrite (M_bind_ok _ _ st None st); [done|].
    unfold lift.
    rewrite file_hash_dictionary_loop_not_found; try done. by intros _.
Qed.

(** C6, at an array the claim covers and the code cannot handle: the
    first entry has no "file" string, the second is the entry for the
    path.  The claim gives the digest of the second entry.  The code
    ignores the result of the getter, [curfile] is still [NULL] when
    [strcmp] reads it at the first entry, and the call is undefined. *)
Lemma C6_first_entry_without_file :
  xbps_array_iter_from_dict example_headless_dictionary "files"
  = Some [XDictionary (<["sha256" := XString hex_bb]> ∅);
          example_entry "etc/passwd" (Some hex_aa)]
  ∧ entry_file (XDictionary (<["sha256" := XString hex_bb]> ∅)) = None
  ∧ entry_file (example_entry "etc/passwd" (Some hex_aa))
    = Some "etc/passwd"%string
  ∧ file_hash_dictionary example_headless_dictionary "files" "etc/passwd"
      example_state = Undef.
Proof. vm_compute. repeat split. Qed.

(** ** Verification against the metadata *)

Section verify.

Variables (NDEBUG : bool) (OS : os) (SHA256 : list byte → vec byte 32).

(** A check that returns has opened its path and then only read and
    closed the descriptor. *)
Lemma xbps_file_sha256_check_trace path sha256 st rv st' :
  xbps_file_sha256_check NDEBUG OS SHA256 path sha256 st = Ok (rv, st') →
  ∃ tr, Forall is_descriptor_io tr
        ∧ trace st' = trace st ++ EvOpen path :: tr.
Proof.
  destruct (xbps_file_sha256_raw_run NDEBUG OS SHA256 path st)
    as (r & st1 & tr & Hrun & Htr & Hio & _).
  unfold xbps_file_sha256_check. rewrite (M_bind_ok _ _ _ _ _ Hrun).
  intros Hcheck. exists tr. split; [done|].
  destruct r as [digest|]; run_M.
  - destruct (sha256_digest_compare _ _ _ _ _) as [[]| |]; simpl in Hcheck;
      try discriminate; by injection Hcheck as <- <-.
  - by injection Hcheck as <- <-.
Qed.

(** The run of [xbps_file_hash_check_dictionary] once the lookup has
    found the digest [sha256d]. *)
Lemma xbps_file_hash_check_dictionary_found xhp d key file st sha256d :
  retval (file_hash_dictionary d key file st) = Some (Some sha256d) →
  xbps_file_hash_check_dictionary NDEBUG OS SHA256 xhp d key file st
  = (rv ← (if String.eqb (rootdir xhp) "/"
           then xbps_file_sha256_check NDEBUG OS SHA256 file sha256d
           else
             buf ← xbps_xasprintf (rootdir xhp) file;
             rv ← xbps_file_sha256_check NDEBUG OS SHA256 buf sha256d;
             _ ← free buf;
             mret rv);
     if rv =? 0 then mret rc_matched
     else if (rv =? ERANGE) || (rv =? ENOENT) then mret rc_no_match
     else mret rc_error) st.
Proof.
  intros Hfound%file_hash_dictionary_state.
  unfold xbps_file_hash_check_dictionary.
  by rewrite (M_bind_ok _ _ _ _ _ Hfound).
Qed.

End verify.

(** C1, as the code has it: when the lookup finds no digest,
    [xbps_file_hash_check_dictionary] returns 1 at once: it makes no system
    call and leaves [ENOENT] in [errno].  The value differs from the one
    for a match, 0, and from the one for an error, -1. *)
Theorem C1_not_found_returns_no_match NDEBUG OS SHA256 xhp d key file st :
  retval (file_hash_dictionary d key file st) = Some None →
  xbps_file_hash_check_dictionary NDEBUG OS SHA256 xhp d key file st
  = Ok (rc_no_match, {| errno := ENOENT; trace := trace st |})
  ∧ rc_no_match = 1
  ∧ rc_no_match ≠ rc_matched
  ∧ rc_no_match ≠ rc_error.
Proof.
  intros Hnone%file_hash_dictionary_state.
  unfold xbps_file_hash_check_dictionary.
  rewrite (M_bind_ok _ _ _ _ _ Hnone). by repeat split.
Qed.

(** C5: once the lookup has found a digest, the result [rv] of
    [xbps_file_sha256_check] on the effective path decides the result: 0
    gives 0 (matched); [ERANGE] and [ENOENT] both give 1 (no match); every
    other value gives -1 (error). *)
Theorem C5_check_result_mapping
    NDEBUG OS SHA256 xhp d key file st sha256d rv st2 :
  retval (file_hash_dictionary d key file st) = Some (Some sha256d) →
  xbps_file_sha256_check NDEBUG OS SHA256 (effective_path xhp file) sha256d
    (if String.eqb (rootdir xhp) "/" then st
     else logged st [EvAlloc (effective_path xhp file)])
  = Ok (rv, st2) →
  ∃ rc,
    retval (xbps_file_hash_check_dictionary NDEBUG OS SHA256 xhp d key file st)
    = Some rc
    ∧ (rv = 0 → rc = rc_matched)
    ∧ (rv = ERANGE ∨ rv = ENOENT → rc = rc_no_match)
    ∧ (rv ≠ 0 → rv ≠ ERANGE → rv ≠ ENOENT → rc = rc_error).
Proof.
  intros Hfound Hcheck.
  rewrite (xbps_file_hash_check_dictionary_found _ _ _ _ _ _ _ _ _ Hfound).
  unfold effective_path in Hcheck.
  exists (if rv =? 0 then rc_matched
          else if (rv =? ERANGE) || (rv =? ENOENT) then rc_no_match
          else rc_error).
  split.
  - destruct (String.eqb (rootdir xhp) "/").
    + rewrite (M_bind_ok _ _ _ _ _ Hcheck).
      by destruct (rv =? 0), ((rv =? ERANGE) || (rv =? ENOENT)).
    + unfold xbps_xasprintf, free, emit.
      unfold mbind at 1 2 3 4 5, M_bind, mret, M_ret. rewrite Hcheck.
      by destruct (rv =? 0), ((rv =? ERANGE) || (rv =? ENOENT)).
  - split; [by intros ->|]. split.
    + by intros [-> | ->].
    + intros H0 H1 H2.
      apply Z.eqb_neq in H0, H1, H2. by rewrite H0, H1, H2.
Qed.

(** C7: once the lookup has found a digest, a call that returns has
    opened one path and then only read and closed its descriptor.  With
    the root directory "/" the path is the file name as given and nothing
    is allocated; with any other root directory the path is the string
    allocated for the root directory, "/" and the file name, which is
    freed after the last of these calls. *)
Theorem C7_effective_path_opened
    NDEBUG OS SHA256 xhp d key file st sha256d rc st' :
  retval (file_hash_dictionary d key file st) = Some (Some sha256d) →
  xbps_file_hash_check_dictionary NDEBUG OS SHA256 xhp d key file st
  = Ok (rc, st') →
  ∃ tr,
    Forall is_descriptor_io tr
    ∧ (rootdir xhp = "/"%string →
       trace st' = trace st ++ EvOpen file :: tr)
    ∧ (rootdir xhp ≠ "/"%string →
       let buf := (rootdir xhp ++ "/" ++ file)%string in
       trace st' = trace st ++ EvAlloc buf :: EvOpen buf :: tr ++ [EvFree buf]).
Proof.
  intros Hfound.
  rewrite (xbps_file_hash_check_dictionary_found _ _ _ _ _ _ _ _ _ Hfound).
  destruct (String.eqb_spec (rootdir xhp) "/") as [Hroot|Hroot]; intros Hrun.
  - destruct (xbps_file_sha256_check NDEBUG OS SHA256 file sha256d st)
      as [[rv st1]| |] eqn:Hcheck;
      [|unfold mbind, M_bind in Hrun; by rewrite Hcheck in Hrun..].
    rewrite (M_bind_ok _ _ _ _ _ Hcheck) in Hrun.
    destruct (xbps_file_sha256_check_trace _ _ _ _ _ _ _ _ Hcheck)
      as (tr & Hio & Htr).
    exists tr. split; [done|]. split; [|done]. intros _.
    destruct (rv =? 0), ((rv =? ERANGE) || (rv =? ENOENT));
      by injection Hrun as <- <-.
  - set (buf := (rootdir xhp ++ "/" ++ file)%string) in *.
    unfold xbps_xasprintf, free, emit in Hrun. fold buf in Hrun.
    unfold mbind at 1 2 3 4 5, M_bind, mret, M_ret in Hrun.
    destruct (xbps_file_sha256_check NDEBUG OS SHA256 buf sha256d
                (logged st [EvAlloc buf]))
      as [[rv st1]| |] eqn:Hcheck; try discriminate.
    destruct (xbps_file_sha256_check_trace _ _ _ _ _ _ _ _ Hcheck)
      as (tr & Hio & Htr).
    exists tr. split; [done|]. split; [done|]. intros _.
    assert (Hst : st' = logged st1 [EvFree buf])
      by (destruct (rv =? 0), ((rv =? ERANGE) || (rv =? ENOENT));
          by injection Hrun as <- <-).
    rewrite Hst. simpl. rewrite Htr. simpl.
    by rewrite <- !app_assoc.
Qed.

(** ** The theorems at concrete inputs *)

Lemma C2_witness :
  length (replicate 32 "a"%byte) = 32%nat
  ∧ ∃ h, digest2string (replicate 32 "a"%byte) 32 = Ok h
         ∧ String.length h = 64%nat
         ∧ sha256_digest_compare false h (String.length h)
             (replicate 32 "a"%byte) 32 = Ok true.
Proof.
  split; [reflexivity|].
  apply (C2_encode_compare_roundtrip false (replicate 32 "a"%byte)).
  reflexivity.
Defined.

Lemma C3_witness :
  String.length hex_aa = 64%nat
  ∧ length (replicate 32 "a"%byte) = 32%nat
  ∧ sha256_digest_compare false hex_aa 64 (replicate 32 "a"%byte) 32
    = Ok (encode_then_compare hex_aa (replicate 32 "a"%byte))
  ∧ (sha256_digest_compare false hex_aa 64 (replicate 32 "a"%byte) 32 = Ok true
     ↔ digest2string (replicate 32 "a"%byte) 32 = Ok hex_aa).
Proof.
  split; [reflexivity|]. split; [reflexivity|].
  apply (C3_compare_refines_encode_then_compare false hex_aa
           (replicate 32 "a"%byte)); reflexivity.
Defined.


(** A path the collection does not track. *)
Lemma C1_witness :
  retval (file_hash_dictionary example_dictionary "files" "etc/shadow"
            example_state) = Some None
  ∧ xbps_file_hash_check_dictionary true
      (example_os 64 1 [RBytes ["a"%byte]]) example_sha256
      {| rootdir := "/" |} example_dictionary "files" "etc/shadow"
      example_state
    = Ok (rc_no_match, {| errno := ENOENT; trace := [] |}).
Proof.
  split; [vm_compute; reflexivity|].
  apply (C1_not_found_returns_no_match true
           (example_os 64 1 [RBytes ["a"%byte]]) example_sha256
           {| rootdir := "/" |} example_dictionary "files" "etc/shadow"
           example_state).
  vm_compute; reflexivity.
Defined.

(** C1 as stated fails.  "etc/shadow" is not tracked; "etc/passwd" is
    tracked, and on a system where it holds "b" its check returns
    [ERANGE], a mismatch.  [xbps_file_hash_check_dictionary] returns the
    same value for the two, 1: not found is not told from mismatched. *)
Lemma C1_not_found_same_as_mismatched :
  retval (file_hash_dictionary example_dictionary "files" "etc/shadow"
            example_state) = Some None
  ∧ retval (file_hash_dictionary example_dictionary "files" "etc/passwd"
              example_state) = Some (Some hex_aa)
  ∧ retval (xbps_file_sha256_check true
              (example_os 64 1 [RBytes ["b"%byte]]) example_sha256
              "etc/passwd" hex_aa example_state) = Some ERANGE
  ∧ retval (xbps_file_hash_check_dictionary true
              (example_os 64 1 [RBytes ["b"%byte]]) example_sha256
              {| rootdir := "/" |} example_dictionary "files" "etc/shadow"
              example_state) = Some 1
  ∧ retval (xbps_file_hash_check_dictionary true
              (example_os 64 1 [RBytes ["b"%byte]]) example_sha256
              {| rootdir := "/" |} example_dictionary "files" "etc/passwd"
              example_state) = Some 1.
Proof. vm_compute. repeat split. Qed.

(** A tracked file under the root directory "/mnt" whose contents do not
    match: the check returns [ERANGE], the verification 1. *)
Lemma C5_witness :
  ∃ rc,
    retval (xbps_file_hash_check_dictionary true
              (example_os 64 1 [RBytes ["b"%byte]]) example_sha256
              {| rootdir := "/mnt" |} example_dictionary "files" "etc/passwd"
              example_state)
    = Some rc
    ∧ (ERANGE = 0 → rc = rc_matched)
    ∧ (ERANGE = ERANGE ∨ ERANGE = ENOENT → rc = rc_no_match)
    ∧ (ERANGE ≠ 0 → ERANGE ≠ ERANGE → ERANGE ≠ ENOENT → rc = rc_error).
Proof.
  eapply (C5_check_result_mapping true
            (example_os 64 1 [RBytes ["b"%byte]]) example_sha256
            {| rootdir := "/mnt" |} example_dictionary "files" "etc/passwd"
            example_state hex_aa ERANGE
            {| errno := 0;
               trace := [EvAlloc "/mnt/etc/passwd"; EvOpen "/mnt/etc/passwd";
                         EvRead 3 65536; EvRead 3 65536; EvClose 3] |});
    vm_compute; reflexivity.
Defined.

(** Of the two entries for "etc/passwd" the first one decides. *)
Lemma X18_witness :
  xbps_array_iter_from_dict example_dictionary "files" = Some example_files
  ∧ first_names_file example_files
  ∧ retval (file_hash_dictionary example_dictionary "files" "etc/passwd"
              example_state)
    = Some (Some hex_aa).
Proof.
  assert (Hiter : xbps_array_iter_from_dict example_dictionary "files"
                  = Some example_files) by (vm_compute; reflexivity).
  assert (Hfirst : first_names_file example_files)
    by (eexists; vm_compute; reflexivity).
  split; [exact Hiter|]. split; [exact Hfirst|].
  destruct (X18_first_matching_entry example_dictionary "files" "etc/passwd"
              example_files example_state Hiter Hfirst) as [Hfound _].
  apply (Hfound 0%nat (example_entry "etc/passwd" (Some hex_aa)));
    [reflexivity|vm_compute; reflexivity|].
  intros j obj' Hj. inversion Hj.
Defined.

(** A tracked file under the root directory "/mnt". *)
Lemma C7_witness :
  ∃ tr,
    Forall is_descriptor_io tr
    ∧ ("/mnt"%string = "/"%string →
       [EvAlloc "/mnt/etc/passwd"; EvOpen "/mnt/etc/passwd";
        EvRead 3 65536; EvRead 3 65536; EvClose 3; EvFree "/mnt/etc/passwd"]
       = [] ++ EvOpen "etc/passwd" :: tr)
    ∧ ("/mnt"%string ≠ "/"%string →
       let buf := ("/mnt" ++ "/" ++ "etc/passwd")%string in
       [EvAlloc "/mnt/etc/passwd"; EvOpen "/mnt/etc/passwd";
        EvRead 3 65536; EvRead 3 65536; EvClose 3; EvFree "/mnt/etc/passwd"]
       = [] ++ EvAlloc buf :: EvOpen buf :: tr ++ [EvFree buf]).
Proof.
  apply (C7_effective_path_opened true
           (example_os 64 1 [RBytes ["a"%byte]]) example_sha256
           {| rootdir := "/mnt" |} example_dictionary "files" "etc/passwd"
           example_state hex_aa 0
           {| errno := 0;
              trace := [EvAlloc "/mnt/etc/passwd"; EvOpen "/mnt/etc/passwd";
                        EvRead 3 65536; EvRead 3 65536; EvClose 3;
                        EvFree "/mnt/etc/passwd"] |});
    vm_compute; reflexivity.
Defined.

(** A file of two pages and a byte. *)
Lemma X19_witness :
  page_size_ok (example_os 64 8193 []) 12
  ∧ xbps_mmap_file (example_os 64 8193 []) "index" example_state
    = Ok (Some (1048576, 12288, 8193),
          {| errno := 0;
             trace := [EvOpen "index"; EvFstat 3; EvMmap 12288 3; EvClose 3] |})
  ∧ 12288 = round_up 8193 4096
  ∧ 8193 = 8193.
Proof.
  assert (Hpage : page_size_ok (example_os 64 8193 []) 12)
    by (split; [reflexivity|simpl; lia]).
  assert (Hrun : xbps_mmap_file (example_os 64 8193 []) "index" example_state
    = Ok (Some (1048576, 12288, 8193),
          {| errno := 0;
             trace := [EvOpen "index"; EvFstat 3; EvMmap 12288 3; EvClose 3] |}))
    by (vm_compute; reflexivity).
  split; [exact Hpage|]. split; [exact Hrun|].
  destruct (X19_mmap_lengths_and_guard_rule (example_os 64 8193 []) 12
              "index" 3%N 8193 example_state
              1048576 12288 8193 _ Hpage eq_refl eq_refl ltac:(lia) Hrun)
    as (Hlen & Hfile & _).
  split; [exact Hlen|exact Hfile].
Defined.

(** A file of 4 GiB - 1 bytes where [size_t] has 32 bits. *)
Lemma C9_witness :
  let OS := example_os 32 4294967295 [] in
  size_modulus OS ≤ round_up (to_size_t OS 4294967295) (os_pagesize OS)
  ∧ ∃ st',
      xbps_mmap_file OS "index" example_state = Ok (None, st')
      ∧ trace st' = [] ++ [EvOpen "index"; EvFstat 3; EvClose 3].
Proof.
  intros OS.
  assert (Hover : size_modulus OS
                  ≤ round_up (to_size_t OS 4294967295) (os_pagesize OS))
    by (vm_compute; discriminate).
  split; [exact Hover|].
  apply (C9_mmap_size_guards OS 12 "index" 3%N 4294967295 example_state).
  - split; [reflexivity|simpl; lia].
  - reflexivity.
  - reflexivity.
  - right. exact Hover.
Defined.

(** The empty file. *)
Lemma C10_witness :
  let OS := example_os 64 0 [] in
  xbps_mmap_file OS "index" example_state
  = Ok (Some (1048576, 0, 0),
        {| errno := 0;
           trace := [EvOpen "index"; EvFstat 3; EvMmap 4096 3; EvClose 3] |})
  ∧ 0 < round_up 0 4096 + 4096.
Proof.
  intros OS.
  assert (Hrun : xbps_mmap_file OS "index" example_state
    = Ok (Some (1048576, 0, 0),
          {| errno := 0;
             trace := [EvOpen "index"; EvFstat 3; EvMmap 4096 3; EvClose 3] |}))
    by (vm_compute; reflexivity).
  split; [exact Hrun|].
  destruct (C10_guard_page_not_in_mapped_length OS 12 "index" 3%N 0
              example_state 1048576 0 0 _
              ltac:(split; [reflexivity|simpl; lia]) eq_refl eq_refl
              ltac:(lia) eq_refl Hrun)
    as (_ & _ & _ & Hlt & _).
  exact Hlt.
Defined.

(** * Further properties of the functions *)

(** ** The hexadecimal notation *)

Lemma nibble_cases v :
  0 ≤ v < 16 →
  v = 0 ∨ v = 1 ∨ v = 2 ∨ v = 3 ∨ v = 4 ∨ v = 5 ∨ v = 6 ∨ v = 7 ∨ v = 8
  ∨ v = 9 ∨ v = 10 ∨ v = 11 ∨ v = 12 ∨ v = 13 ∨ v = 14 ∨ v = 15.
Proof. lia. Qed.

Lemma nibble_char_lower_hex v : 0 ≤ v < 16 → is_lower_hex (nibble_char v).
Proof.
  intros Hv%nibble_cases. unfold is_lower_hex.
  repeat (destruct Hv as [Hv|Hv]); subst; vm_compute; intuition congruence.
Qed.

Lemma nibble_char_inj v1 v2 :
  0 ≤ v1 < 16 → 0 ≤ v2 < 16 → nibble_char v1 = nibble_char v2 → v1 = v2.
Proof.
  intros Hv1%nibble_cases Hv2%nibble_cases.
  repeat (destruct Hv1 as [Hv1|Hv1]); repeat (destruct Hv2 as [Hv2|Hv2]);
    subst; intros; try reflexivity; discriminate.
Qed.

Lemma nibble_char_nonzero v : 0 ≤ v < 16 → nibble_char v ≠ Ascii.zero.
Proof.
  intros Hv%nibble_cases. repeat (destruct Hv as [Hv|Hv]); subst; discriminate.
Qed.

Lemma byte_val_range b : 0 ≤ byte_val b < 256.
Proof. unfold byte_val. pose proof (Byte.to_N_bounded b). lia. Qed.

Lemma byte_val_nibbles b :
  0 ≤ byte_val b / 16 < 16 ∧ 0 ≤ byte_val b mod 16 < 16.
Proof.
  pose proof (byte_val_range b). split.
  - split; [apply Z.div_pos; lia|apply Z.div_lt_upper_bound; lia].
  - apply Z.mod_pos_bound. lia.
Qed.

Lemma byte_val_inj b1 b2 : byte_val b1 = byte_val b2 → b1 = b2.
Proof.
  unfold byte_val. intros H%(inj Z.of_N).
  pose proof (Byte.of_to_N b1) as H1. rewrite H, Byte.of_to_N in H1.
  by injection H1.
Qed.

Lemma digest2string_ok digest : ∀ len,
  (len ≤ length digest)%nat →
  ∃ h, digest2string digest len = Ok h
       ∧ String.length h = (2 * len)%nat
       ∧ Forall is_lower_hex (list_ascii_of_string h).
Proof.
  induction digest as [|b digest IH]; intros [|len] Hlen; simpl in *;
    try lia; try (exists EmptyString; by repeat split).
  destruct (IH len ltac:(lia)) as (h & -> & Hh & Hhex). simpl.
  eexists. split; [reflexivity|]. split; [simpl; lia|].
  destruct (byte_val_nibbles b).
  simpl. constructor; [by apply nibble_char_lower_hex|].
  constructor; [by apply nibble_char_lower_hex|done].
Qed.

Lemma digest2string_cons b digest len h :
  digest2string digest len = Ok h →
  digest2string (b :: digest) (S len)
  = Ok (String (nibble_char (byte_val b / 16))
          (String (nibble_char (byte_val b mod 16)) h)).
Proof. intros H. simpl. by rewrite H. Qed.

(** X1: [digest2string] on [len] bytes of a buffer that holds them
    returns a string of [2 * len] characters, all of them digits 0 to 9
    or letters a to f. *)
Theorem X1_digest2string_lower_hex (digest : list byte) (len : nat) :
  (len ≤ length digest)%nat →
  ∃ h, digest2string digest len = Ok h
       ∧ String.length h = (2 * len)%nat
       ∧ Forall is_lower_hex (list_ascii_of_string h).
Proof.
  revert len. induction digest as [|b digest IH]; intros [|len] Hlen;
    simpl in *; try lia; try (exists EmptyString; by repeat split).
  destruct (IH len ltac:(lia)) as (h & -> & Hh & Hhex). simpl.
  eexists. split; [reflexivity|]. split; [simpl; lia|].
  destruct (byte_val_nibbles b).
  simpl. constructor; [by apply nibble_char_lower_hex|].
  constructor; [by apply nibble_char_lower_hex|done].
Qed.

(** X2: the notation is injective: two buffers that [digest2string]
    encodes to the same string over [len] bytes agree on these bytes. *)
Theorem X2_digest2string_injective (d1 d2 : list byte) (len : nat) h :
  digest2string d1 len = Ok h →
  digest2string d2 len = Ok h →
  take len d1 = take len d2.
Proof.
  revert d1 d2 h.
  induction len as [|len IH]; intros d1 d2 h H1 H2; [done|].
  destruct d1 as [|b1 d1], d2 as [|b2 d2]; simpl in H1, H2; try discriminate.
  destruct (digest2string d1 len) as [h1| |] eqn:E1; try discriminate.
  destruct (digest2string d2 len) as [h2| |] eqn:E2; try discriminate.
  simpl in H1, H2. injection H1 as <-. injection H2 as Hhi Hlo ->.
  destruct (byte_val_nibbles b1) as [? ?], (byte_val_nibbles b2) as [? ?].
  apply nibble_char_inj in Hhi, Hlo; try done.
  assert (b2 = b1) as ->.
  { apply byte_val_inj.
    rewrite (Z.div_mod (byte_val b2) 16), (Z.div_mod (byte_val b1) 16) by lia.
    by rewrite Hhi, Hlo. }
  simpl. f_equal. by apply (IH d1 d2 h1).
Qed.

Lemma half_succ_succ n : (S (S n) / 2 = S (n / 2))%nat.
Proof.
  replace (S (S n)) with (n + 1 * 2)%nat by lia.
  rewrite Nat.div_add by lia. lia.
Qed.

(** X3: on a string of at most twice as many characters as the buffer has
    bytes, the loop of [sha256_digest_compare] stays inside the buffer; it
    returns true exactly when the string is the notation of the first
    bytes of the buffer, half as many as it has characters.  The notation
    of a proper prefix of the digest is accepted by the loop: only the
    test of [shalen] rejects it. *)
Theorem X3_compare_loop_accepts_prefixes (s : string) (d : list byte) :
  (String.length s ≤ 2 * length d)%nat →
  ∃ b, sha256_digest_compare_loop s d = Ok b
       ∧ (b = true ↔ digest2string d (String.length s / 2) = Ok s).
Proof.
  revert s. induction d as [|x d IH]; intros s Hlen.
  - destruct s; simpl in Hlen; [|lia]. by exists true.
  - destruct s as [|c1 [|c2 s]].
    + by exists true.
    + exists false. destruct (byte_val_nibbles x) as [? ?]. split.
      * cbn [sha256_digest_compare_loop].
        destruct (Ascii.eqb c1 _); cbn [negb]; [|done].
        destruct (Ascii.eqb_spec Ascii.zero
                    (nibble_char (byte_val x mod 16))) as [Hz|];
          cbn [negb]; [|done].
        symmetry in Hz. by apply nibble_char_nonzero in Hz.
      * split; [done|]. simpl. discriminate.
    + simpl in Hlen.
      destruct (IH s ltac:(lia)) as (b & Hb & Hiff).
      destruct (digest2string_ok d (String.length s / 2)) as (h & Hh & _).
      { pose proof (Nat.Div0.div_le_upper_bound (String.length s) 2
                      (length d)).
        apply Nat.Div0.div_le_upper_bound. lia. }
      cbn [String.length]. rewrite half_succ_succ.
      rewrite (digest2string_cons x d _ h Hh).
      cbn [sha256_digest_compare_loop].
      destruct (Ascii.eqb_spec c1 (nibble_char (byte_val x / 16)))
        as [->|Hc1]; simpl.
      * destruct (Ascii.eqb_spec c2 (nibble_char (byte_val x mod 16)))
          as [->|Hc2]; simpl.
        -- exists b. split; [done|]. rewrite Hiff, Hh.
           split; [by intros [= ->]|by intros [= ->]].
        -- exists false. split; [done|]. split; [done|]. intros [= E _].
           by destruct Hc2.
      * exists false. split; [done|]. split; [done|]. intros [= E _ _].
        by destruct Hc1.
Qed.

(** X4: [sha256_digest_compare], called as [xbps_file_sha256_check] calls
    it, returns true only on a string of 64 characters that are all
    digits 0 to 9 or letters a to f: notation in upper case never compares
    equal. *)
Theorem X4_compare_accepts_only_lower_hex NDEBUG s (d : list byte) :
  length d = 32%nat →
  sha256_digest_compare NDEBUG s (String.length s) d 32 = Ok true →
  String.length s = 64%nat
  ∧ Forall is_lower_hex (list_ascii_of_string s).
Proof.
  intros Hd Hcmp.
  destruct (decide (String.length s = 64%nat)) as [Hs|Hs].
  - split; [done|]. rewrite Hs in Hcmp.
    pose proof (sha256_digest_compare_sized NDEBUG s d Hs Hd) as Hsized.
    unfold XBPS_SHA256_DIGEST_SIZE in Hsized. rewrite Hsized in Hcmp.
    injection Hcmp as Henc.
    apply (encode_then_compare_true s d Hd) in Henc.
    destruct (digest2string_ok d 32 ltac:(lia)) as (h & Hh & _ & Hhex).
    unfold XBPS_SHA256_DIGEST_SIZE in Henc. rewrite Henc in Hh.
    by injection Hh as <-.
  - unfold sha256_digest_compare, assert in Hcmp. simpl in Hcmp.
    replace (String.length s =? 64)%nat with false in Hcmp
      by (symmetry; by apply Nat.eqb_neq).
    by destruct NDEBUG.
Qed.

(** ** Mapping a file *)

(** X5: [xbps_mmap_file] always returns, and its calls are one of four
    sequences.  When [open] fails it makes no other call.  Otherwise it
    calls [fstat] and closes the descriptor exactly once, before it
    returns; in between it calls [mmap] at most once, and it returns true
    only if it did; after a failed [mmap] it calls [munmap] on
    [MAP_FAILED]. *)
Theorem X5_mmap_file_calls OS file st :
  ∃ r st',
    xbps_mmap_file OS file st = Ok (r, st')
    ∧ match os_open OS file with
      | inl e => r = None ∧ st' = {| errno := e;
                                     trace := trace st ++ [EvOpen file] |}
      | inr fd =>
          let fd := Z.of_N fd in
          ∃ tr,
            trace st' = trace st ++ EvOpen file :: EvFstat fd :: tr
            ∧ ((tr = [EvClose fd] ∧ r = None)
               ∨ (∃ len, tr = [EvMmap len fd; EvClose fd] ∧ is_Some r)
               ∨ (∃ len len',
                    tr = [EvMmap len fd; EvClose fd; EvMunmap MAP_FAILED len']
                    ∧ r = None))
      end.
Proof.
  unfold xbps_mmap_file.
  destruct (os_open OS file) as [e|fd] eqn:Hopen.
  { rewrite (open_fails OS file e) by done. by eexists _, _. }
  rewrite (open_ok OS file fd) by done.
  replace (Z.of_N fd =? -1) with false by (symmetry; apply Z.eqb_neq; lia).
  cbv zeta.
  assert (Hclose : ∃ st',
    (close OS (Z.of_N fd) ≫= λ _, mret (@None (Z * Z * Z)))
      (logged st [EvOpen file; EvFstat (Z.of_N fd)]) = Ok (None, st')
    ∧ trace st' = trace st ++ [EvOpen file; EvFstat (Z.of_N fd);
                               EvClose (Z.of_N fd)]).
  { run_M. destruct (os_close OS _); eexists; (split; [reflexivity|]);
      simpl; by rewrite <- app_assoc. }
  destruct Hclose as (stc & Hclose & Htrc).
  assert (Hshort : ∃ r st',
    Ok (@None (Z * Z * Z), stc) = Ok (r, st')
    ∧ ∃ tr,
        trace st' = trace st ++ EvOpen file :: EvFstat (Z.of_N fd) :: tr
        ∧ ((tr = [EvClose (Z.of_N fd)] ∧ r = None)
           ∨ (∃ len, tr = [EvMmap len (Z.of_N fd); EvClose (Z.of_N fd)]
                     ∧ is_Some r)
           ∨ (∃ len len',
                tr = [EvMmap len (Z.of_N fd); EvClose (Z.of_N fd);
                      EvMunmap MAP_FAILED len']
                ∧ r = None))).
  { eexists _, _. split; [reflexivity|]. eexists. split; [exact Htrc|].
    by left. }
  destruct (os_fstat OS (Z.of_N fd)) as [e|s] eqn:Hfstat.
  { unfold fstat, emit. unfold mbind at 1 2, M_bind. rewrite Hfstat.
    unfold set_errno, mbind at 1, M_bind, mret, M_ret.
    change (-1 =? -1) with true. cbv iota.
    unfold close, emit, mbind, M_bind, set_errno. simpl.
    destruct (os_close OS _); eexists _, _; (split; [reflexivity|]);
      eexists; (split; [|by left]); simpl; by rewrite <- !app_assoc. }
  rewrite (fstat_ok OS _ s) by done. rewrite logged_logged. simpl app.
  cbv beta iota. change (0 =? -1) with false. cbv iota.
  destruct (s >? SSIZE_MAX OS - 1); [by rewrite Hclose|].
  destruct (_ <? to_size_t OS s); [by rewrite Hclose|].
  set (len := if Z.land s _ =? 0 then _ else _).
  set (len' := Z.land _ _).
  clearbody len len'. clear Hclose Hshort Htrc stc. run_M.
  destruct (os_mmap OS len (Z.of_N fd)) as [e|a]; simpl.
  - destruct (os_close OS _), (os_munmap OS _ _); simpl;
      eexists _, _; (split; [reflexivity|]); eexists;
      (split; [simpl; by rewrite <- !app_assoc|]);
      right; right; by eexists _, _.
  - replace (Z.of_N a =? MAP_FAILED) with false
      by (symmetry; apply Z.eqb_neq; unfold MAP_FAILED; lia).
    destruct (os_close OS _); simpl;
      eexists _, _; (split; [reflexivity|]); eexists;
      (split; [simpl; by rewrite <- !app_assoc|]);
      right; left; by eexists.
Qed.

(** The length asked of [mmap]: whole pages, at least one, that cover the
    file and at least one byte more, and that [size_t] holds. *)
Lemma guarded_length_shape OS k s :
  page_size_ok OS k →
  0 ≤ s ≤ SSIZE_MAX OS - 1 →
  let p := os_pagesize OS in
  let len := guarded_length s p in
  0 < len ∧ len mod p = 0 ∧ s < len ≤ s + p ∧ len < size_modulus OS.
Proof.
  intros Hpage Hs p len.
  pose proof (pagesize_pos OS k Hpage) as Hp. fold p in Hp.
  pose proof (pagesize_le_half OS k Hpage) as Hhalf. fold p in Hhalf.
  pose proof (size_modulus_split OS k Hpage) as Hm.
  pose proof (round_up_bounds s p Hp) as Hb.
  pose proof (round_up_multiple s p Hp) as Hmul.
  rewrite (SSIZE_MAX_eq OS) in Hs.
  subst len. unfold guarded_length. case_decide as Hal.
  - rewrite (round_up_aligned s p Hp Hal).
    split; [lia|]. split; [|lia].
    rewrite <- Z.add_mod_idemp_l, Hal by lia. apply Z.mod_same. lia.
  - assert (round_up s p ≠ s) by (intros Heq; by rewrite Heq in Hmul).
    split; [lia|]. split; [done|]. lia.
Qed.

(** X6: for a file that opens and whose size [s] is not negative,
    [xbps_mmap_file] returns true exactly when [s] is at most
    [SSIZE_MAX - 1] and [mmap] succeeds on the length asked; it then
    returns the address [mmap] gave.  The second guard, on the rounded
    size, rejects no such file. *)
Theorem X6_mmap_file_succeeds_iff OS k file fd s st :
  page_size_ok OS k →
  os_open OS file = inr fd →
  os_fstat OS (Z.of_N fd) = inr s →
  0 ≤ s →
  let p := os_pagesize OS in
  ∀ mmf,
    (∃ mmflen filelen st',
       xbps_mmap_file OS file st = Ok (Some (mmf, mmflen, filelen), st'))
    ↔ (s ≤ SSIZE_MAX OS - 1
       ∧ ∃ a, os_mmap OS (guarded_length s p) (Z.of_N fd) = inr a
              ∧ mmf = Z.of_N a).
Proof.
  intros Hpage Hopen Hfstat Hs p mmf.
  destruct (decide (s ≤ SSIZE_MAX OS - 1)) as [Hle|Hgt].
  - rewrite (xbps_mmap_file_sized OS k Hpage file fd s Hopen Hfstat) by lia.
    fold p. run_M.
    destruct (os_mmap OS _ (Z.of_N fd)) as [e|a]; simpl.
    + split.
      * intros (? & ? & ? & Hrun).
        destruct (os_close OS _), (os_munmap OS _ _); discriminate.
      * by intros (_ & a & ? & _).
    + replace (Z.of_N a =? MAP_FAILED) with false
        by (symmetry; apply Z.eqb_neq; unfold MAP_FAILED; lia).
      split.
      * intros (? & ? & ? & Hrun). split; [done|]. exists a. split; [done|].
        destruct (os_close OS _); simpl in Hrun; by injection Hrun as <-.
      * intros (_ & a' & [= <-] & ->).
        destruct (os_close OS _); simpl; by eexists _, _, _.
  - rewrite (xbps_mmap_file_too_large OS file fd s Hopen Hfstat) by lia.
    run_M. split; [|lia].
    intros (? & ? & ? & Hrun). destruct (os_close OS _); discriminate.
Qed.

(** X7: when the size of the file passes the guard, [mmap] is asked for a
    length that is positive (also for the empty file), a multiple of the
    page size, greater than the size of the file by at most one page, and
    that [size_t] holds without wrapping. *)
Theorem X7_mmap_request_shape OS k file fd s st :
  page_size_ok OS k →
  os_open OS file = inr fd →
  os_fstat OS (Z.of_N fd) = inr s →
  0 ≤ s ≤ SSIZE_MAX OS - 1 →
  let p := os_pagesize OS in
  ∃ r st' len tr,
    xbps_mmap_file OS file st = Ok (r, st')
    ∧ trace st' = trace st ++ EvOpen file :: EvFstat (Z.of_N fd)
                            :: EvMmap len (Z.of_N fd) :: tr
    ∧ 0 < len
    ∧ len mod p = 0
    ∧ s < len ≤ s + p
    ∧ len < size_modulus OS.
Proof.
  intros Hpage Hopen Hfstat Hs p.
  rewrite (xbps_mmap_file_sized OS k Hpage file fd s Hopen Hfstat) by lia.
  fold p.
  destruct (guarded_length_shape OS k s Hpage Hs) as (H1 & H2 & H3 & H4).
  fold p in H1, H2, H3, H4. run_M.
  destruct (os_mmap OS _ (Z.of_N fd)) as [e|a]; simpl.
  - destruct (os_close OS _), (os_munmap OS _ _); simpl;
      eexists _, _, _, _; (split; [reflexivity|]);
      (split; [simpl; by rewrite <- !app_assoc|]); done.
  - replace (Z.of_N a =? MAP_FAILED) with false
      by (symmetry; apply Z.eqb_neq; unfold MAP_FAILED; lia).
    destruct (os_close OS _); simpl;
      eexists _, _, _, _; (split; [reflexivity|]);
      (split; [simpl; by rewrite <- !app_assoc|]); done.
Qed.

(** X8: when [mmap] fails, [xbps_mmap_file] closes the descriptor, calls
    [munmap] on [MAP_FAILED] with the rounded size and returns false.  The
    value it leaves in [errno] is the code of [mmap] only if neither
    [close] nor that [munmap] failed: the code of the later failing call
    replaces it. *)
Theorem X8_mmap_failure_errno OS k file fd s st e :
  page_size_ok OS k →
  os_open OS file = inr fd →
  os_fstat OS (Z.of_N fd) = inr s →
  0 ≤ s ≤ SSIZE_MAX OS - 1 →
  let p := os_pagesize OS in
  os_mmap OS (guarded_length s p) (Z.of_N fd) = inl e →
  xbps_mmap_file OS file st
  = Ok (None,
        {| errno := default (default e (os_close OS (Z.of_N fd)))
                      (os_munmap OS MAP_FAILED (round_up s p));
           trace := trace st ++
             [EvOpen file; EvFstat (Z.of_N fd);
              EvMmap (guarded_length s p) (Z.of_N fd); EvClose (Z.of_N fd);
              EvMunmap MAP_FAILED (round_up s p)] |}).
Proof.
  intros Hpage Hopen Hfstat Hs p Hmmap.
  rewrite (xbps_mmap_file_sized OS k Hpage file fd s Hopen Hfstat) by lia.
  fold p. run_M. rewrite Hmmap. simpl.
  destruct (os_close OS _), (os_munmap OS _ _); unfold logged; simpl;
    rewrite <- !app_assoc; reflexivity.
Qed.

(** ** Hashing and checking a file *)

Lemma file_contents_chunks chunks tail :
  Forall (λ c : list byte, c ≠ []) chunks →
  tail = [] ∨ (∃ tail', tail = RBytes [] :: tail') →
  file_contents ((RBytes <$> chunks) ++ tail) = inr (concat chunks).
Proof.
  intros Hne Htail. induction Hne as [|c chunks Hc _ IH].
  - by destruct Htail as [->|[tail' ->]].
  - rewrite fmap_cons. destruct c as [|x c]; [done|].
    change (file_contents ((RBytes (x :: c) :: (RBytes <$> chunks)) ++ tail))
      with (match file_contents ((RBytes <$> chunks) ++ tail) with
            | inl e => inl e
            | inr rest => inr ((x :: c) ++ rest)
            end).
    by rewrite IH.
Qed.

Lemma file_contents_error answers e :
  file_contents answers = inl e → RError e ∈ answers.
Proof.
  induction answers as [|[[|b buf]|e'] answers IH]; simpl; try done.
  - destruct (file_contents answers); [|done].
    intros [= ->]. right. by apply IH.
  - intros [= ->]. left.
Qed.

Section hashing_more.

Variables (NDEBUG : bool) (OS : os) (SHA256 : list byte → vec byte 32).

(** The read loop on reads that end: one [read] for each chunk and one
    for the answer that ends the loop; the context is fed the chunks;
    [errno] changes only if the last read failed. *)
Lemma sha256_read_loop_ends fd (chunks : list (list byte)) last rest :
  Forall (λ c : list byte, c ≠ []) chunks →
  last = RBytes [] ∨ (∃ e, last = RError e) →
  ∀ ctx st,
    sha256_read_loop fd ((RBytes <$> chunks) ++ last :: rest) ctx st
    = Ok ((if last is RError _ then -1 else 0, ctx ++ concat chunks),
          {| errno := if last is RError e then e else errno st;
             trace := trace st
               ++ replicate (S (length chunks)) (EvRead fd sizeof_buf) |}).
Proof.
  intros Hne Hlast.
  induction Hne as [|c chunks Hc _ IH]; intros ctx st.
  - simpl. rewrite app_nil_r.
    by destruct Hlast as [->|[e ->]].
  - rewrite fmap_cons. destruct c as [|x c]; [done|].
    change ((RBytes (x :: c) :: (RBytes <$> chunks)) ++ last :: rest)
      with (RBytes (x :: c) :: ((RBytes <$> chunks) ++ last :: rest)).
    cbn [sha256_read_loop].
    unfold read, emit, mbind, M_bind, mret, M_ret. cbn beta iota.
    replace (Z.of_nat (length (x :: c)) >? 0) with true by done.
    unfold SHA256_Update. rewrite Nat2Z.id, take_ge by done.
    rewrite IH. unfold logged. simpl.
    by rewrite <- !app_assoc.
Qed.

(** The assertion of [xbps_file_sha256_raw] holds on a buffer of 32
    bytes: the build makes no difference. *)
Lemma xbps_file_sha256_raw_build file st :
  xbps_file_sha256_raw NDEBUG OS SHA256 XBPS_SHA256_DIGEST_SIZE file st
  = xbps_file_sha256_raw true OS SHA256 XBPS_SHA256_DIGEST_SIZE file st.
Proof. unfold xbps_file_sha256_raw, assert, lift. by destruct NDEBUG. Qed.

(** A comparison that returns has decided equality with the notation
    of the digest. *)
Lemma sha256_digest_compare_returns s d b :
  length d = XBPS_SHA256_DIGEST_SIZE →
  sha256_digest_compare NDEBUG s (String.length s) d XBPS_SHA256_DIGEST_SIZE
  = Ok b →
  b = encode_then_compare s d.
Proof.
  intros Hd. destruct NDEBUG.
  - rewrite sha256_digest_compare_production by done. by intros [= <-].
  - destruct (decide (String.length s = 64%nat)) as [Hs|Hs].
    + rewrite Hs, sha256_digest_compare_sized by done. by intros [= <-].
    + unfold sha256_digest_compare, assert. simpl.
      replace (String.length s =? 64)%nat with false
        by (symmetry; by apply Nat.eqb_neq).
      done.
Qed.

End hashing_more.

Section checking_more.

Variables (NDEBUG : bool) (OS : os) (SHA256 : list byte → vec byte 32).

(** A check that returns a value returns [check_result]. *)
Lemma xbps_file_sha256_check_returns file sha256 st rv :
  retval (xbps_file_sha256_check NDEBUG OS SHA256 file sha256 st) = Some rv →
  rv = check_result OS SHA256 file sha256.
Proof.
  destruct (xbps_file_sha256_raw_run NDEBUG OS SHA256 file st)
    as (r & st' & tr & Hrun & _ & _ & Hres).
  unfold xbps_file_sha256_check, check_result.
  rewrite (M_bind_ok _ _ _ _ _ Hrun).
  destruct (os_open OS file) as [e|fd].
  { destruct Hres as [-> He]. simpl. rewrite He. by intros [= <-]. }
  destruct (file_contents _) as [e|m].
  { destruct Hres as [-> He]. simpl. rewrite He. by intros [= <-]. }
  destruct Hres as [-> _].
  assert (Hlen : length (SHA256_Final SHA256 m) = XBPS_SHA256_DIGEST_SIZE)
    by apply length_vec_to_list.
  unfold mbind, M_bind, lift.
  destruct (sha256_digest_compare _ _ _ _ _) as [b| |] eqn:Hcmp; try done.
  apply sha256_digest_compare_returns in Hcmp as ->; [|done].
  destruct (encode_then_compare _ _); simpl; by intros [= <-].
Qed.

End checking_more.

(** In a build with [NDEBUG] a check returns a value. *)
Lemma xbps_file_sha256_check_production OS SHA256 file sha256 st :
  ∃ st',
    xbps_file_sha256_check true OS SHA256 file sha256 st
    = Ok (check_result OS SHA256 file sha256, st').
Proof.
  destruct (xbps_file_sha256_raw_run true OS SHA256 file st)
    as (r & st' & tr & Hrun & _ & _ & Hres).
  assert (Hret : ∃ rv st'',
    xbps_file_sha256_check true OS SHA256 file sha256 st = Ok (rv, st'')).
  { unfold xbps_file_sha256_check. rewrite (M_bind_ok _ _ _ _ _ Hrun).
    destruct r as [digest|]; [|by eexists _, _].
    assert (Hlen : length digest = XBPS_SHA256_DIGEST_SIZE).
    { destruct (os_open OS file); [by destruct Hres|].
      destruct (file_contents _); destruct Hres as [Hr _]; [done|].
      injection Hr as ->. apply length_vec_to_list. }
    unfold mbind, M_bind, lift.
    rewrite sha256_digest_compare_production by done.
    destruct (encode_then_compare _ _); by eexists _, _. }
  destruct Hret as (rv & st'' & Hret). exists st''. rewrite Hret.
  do 2 f_equal.
  apply (xbps_file_sha256_check_returns true OS SHA256 file sha256 st).
  by rewrite Hret.
Qed.

(** X9: the digest [xbps_file_sha256_raw] stores is that of the
    concatenation of the chunks [read] delivers up to the first empty
    one, however the system cuts the file into chunks; it has 32 bytes. *)
Theorem X9_sha256_raw_hashes_concatenation
    NDEBUG OS SHA256 file st fd (chunks : list (list byte)) tail :
  os_open OS file = inr fd →
  os_read OS (Z.of_N fd) sizeof_buf = (RBytes <$> chunks) ++ tail →
  Forall (λ c : list byte, c ≠ []) chunks →
  tail = [] ∨ (∃ tail', tail = RBytes [] :: tail') →
  retval (xbps_file_sha256_raw NDEBUG OS SHA256 32 file st)
  = Some (Some (vec_to_list (SHA256 (concat chunks))))
  ∧ length (vec_to_list (SHA256 (concat chunks))) = 32%nat.
Proof.
  intros Hopen Hread Hne Htail.
  destruct (xbps_file_sha256_raw_run NDEBUG OS SHA256 file st)
    as (r & st' & tr & Hrun & _ & _ & Hres).
  rewrite Hopen, Hread, file_contents_chunks in Hres by done.
  destruct Hres as [-> _]. unfold XBPS_SHA256_DIGEST_SIZE in Hrun.
  rewrite Hrun. split; [done|]. apply length_vec_to_list.
Qed.

(** X10: the calls of [xbps_file_sha256_raw] on a buffer of 32 bytes.
    When [open] fails it returns false after that one call, with the code
    of [open] in [errno].  When the file opens and its reads end, chunks
    that are not empty and then an empty or a failing read, it returns
    after one [read] for each chunk and one for the read that ends them,
    each asking for 65536 bytes, and one [close], its last call, also when
    the last read failed; it returns false exactly when that read
    failed. *)
Theorem X10_sha256_raw_calls NDEBUG OS SHA256 file st :
  (∀ e,
     os_open OS file = inl e →
     xbps_file_sha256_raw NDEBUG OS SHA256 32 file st
     = Ok (None, {| errno := e; trace := trace st ++ [EvOpen file] |}))
  ∧ (∀ fd (chunks : list (list byte)) last rest,
       os_open OS file = inr fd →
       os_read OS (Z.of_N fd) sizeof_buf = (RBytes <$> chunks) ++ last :: rest →
       Forall (λ c : list byte, c ≠ []) chunks →
       last = RBytes [] ∨ (∃ e, last = RError e) →
       ∃ r st',
         xbps_file_sha256_raw NDEBUG OS SHA256 32 file st = Ok (r, st')
         ∧ trace st' = trace st ++ EvOpen file
             :: replicate (S (length chunks)) (EvRead (Z.of_N fd) 65536)
             ++ [EvClose (Z.of_N fd)]
         ∧ (r = None ↔ ∃ e, last = RError e)).
Proof.
  change 32%nat with XBPS_SHA256_DIGEST_SIZE.
  rewrite xbps_file_sha256_raw_build. unfold xbps_file_sha256_raw.
  rewrite (M_bind_ok _ _ st tt st) by done.
  change (XBPS_SHA256_DIGEST_SIZE <? XBPS_SHA256_DIGEST_SIZE)%nat with false.
  cbv iota. split.
  - intros e Hopen. by rewrite (open_fails OS file e).
  - intros fd chunks last rest Hopen Hread Hne Hlast.
    rewrite (open_ok OS file fd) by done.
    replace (Z.of_N fd <? 0) with false by (symmetry; apply Z.ltb_ge; lia).
    cbv iota. rewrite Hread.
    rewrite (M_bind_ok _ _ _ _ _
               (sha256_read_loop_ends (Z.of_N fd) chunks last rest Hne Hlast
                  SHA256_Init (logged st [EvOpen file]))).
    run_M.
    destruct Hlast as [->|[e ->]]; simpl;
      destruct (os_close OS _); simpl;
      eexists _, _; (split; [reflexivity|]);
      (split; [simpl; by rewrite <- !app_assoc|]);
      split; try done; try (intros [e' ?]; done); by eexists.
Qed.

(** X11: the string [xbps_file_sha256] returns for a file has 64
    characters, all digits 0 to 9 or letters a to f, and
    [xbps_file_sha256_check] of the same file against that string returns
    0, in either build. *)
Theorem X11_sha256_then_check NDEBUG OS SHA256 dstlen file st h :
  retval (xbps_file_sha256 NDEBUG OS SHA256 dstlen file st) = Some (Some h) →
  String.length h = 64%nat
  ∧ Forall is_lower_hex (list_ascii_of_string h)
  ∧ ∀ st2,
      retval (xbps_file_sha256_check NDEBUG OS SHA256 file h st2) = Some 0.
Proof.
  unfold xbps_file_sha256. intros Hhex.
  destruct (decide (XBPS_SHA256_SIZE ≤ dstlen)%nat) as [Hle|Hgt].
  2: { replace (XBPS_SHA256_SIZE <=? dstlen)%nat with false in Hhex
         by (symmetry; apply Nat.leb_gt; lia).
       replace (dstlen <? XBPS_SHA256_SIZE)%nat with true in Hhex
         by (symmetry; apply Nat.ltb_lt; lia).
       unfold assert in Hhex. run_M. by destruct NDEBUG. }
  replace (XBPS_SHA256_SIZE <=? dstlen)%nat with true in Hhex
    by (symmetry; by apply Nat.leb_le).
  replace (dstlen <? XBPS_SHA256_SIZE)%nat with false in Hhex
    by (symmetry; apply Nat.ltb_ge; lia).
  rewrite (M_bind_ok _ _ st tt st) in Hhex
    by (unfold lift, assert; by destruct NDEBUG).
  destruct (xbps_file_sha256_raw_run NDEBUG OS SHA256 file st)
    as (r & st' & tr & Hrun & _ & _ & Hres).
  rewrite (M_bind_ok _ _ _ _ _ Hrun) in Hhex.
  destruct (os_open OS file) as [e|fd] eqn:Hopen;
    [destruct Hres as [-> _]; discriminate|].
  destruct (file_contents _) as [e|m] eqn:Hm;
    [destruct Hres as [-> _]; discriminate|].
  destruct Hres as [-> _].
  assert (Hlen : length (SHA256_Final SHA256 m) = XBPS_SHA256_DIGEST_SIZE)
    by apply length_vec_to_list.
  destruct (digest2string_ok (SHA256_Final SHA256 m) XBPS_SHA256_DIGEST_SIZE)
    as (h' & Hh' & Hsize & Hlower); [lia|].
  unfold mbind, M_bind, lift in Hhex. rewrite Hh' in Hhex.
  simpl in Hhex. injection Hhex as ->.
  split; [done|]. split; [done|]. intros st2.
  destruct (xbps_file_sha256_raw_run NDEBUG OS SHA256 file st2)
    as (r2 & st2' & tr2 & Hrun2 & _ & _ & Hres2).
  rewrite Hopen, Hm in Hres2. destruct Hres2 as [-> _].
  unfold xbps_file_sha256_check. rewrite (M_bind_ok _ _ _ _ _ Hrun2).
  unfold mbind, M_bind, lift.
  change (String.length h) with (String.length h). rewrite Hsize.
  change (2 * XBPS_SHA256_DIGEST_SIZE)%nat with 64%nat.
  rewrite sha256_digest_compare_sized by done.
  replace (encode_then_compare h (SHA256_Final SHA256 m)) with true
    by (symmetry; by apply encode_then_compare_true).
  reflexivity.
Qed.

(** X12: on a system whose failing calls leave a code other than 0,
    [xbps_file_sha256_check] returns 0 only if the file opened, was read
    to its end, and the notation of its digest is the expected string: a
    failure to open or to read is never taken for a match. *)
Theorem X12_check_zero_only_on_match NDEBUG OS SHA256 file sha256 st :
  os_errors_nonzero OS →
  retval (xbps_file_sha256_check NDEBUG OS SHA256 file sha256 st) = Some 0 →
  ∃ fd m,
    os_open OS file = inr fd
    ∧ file_contents (os_read OS (Z.of_N fd) sizeof_buf) = inr m
    ∧ digest2string (vec_to_list (SHA256 m)) 32 = Ok sha256.
Proof.
  intros (Hopen & Hread & Hclose) Hzero%xbps_file_sha256_check_returns.
  unfold check_result in Hzero.
  destruct (os_open OS file) as [e|fd] eqn:Ho.
  { by destruct (Hopen file e Ho). }
  destruct (file_contents _) as [e|m] eqn:Hm.
  { apply file_contents_error in Hm.
    destruct (os_close OS (Z.of_N fd)) as [e'|] eqn:Hc; simpl in Hzero.
    - by destruct (Hclose _ e' Hc).
    - by destruct (Hread _ _ e Hm). }
  exists fd, m. split; [done|]. split; [done|].
  destruct (encode_then_compare _ _) eqn:Henc; [|done].
  apply encode_then_compare_true in Henc; [done|].
  apply length_vec_to_list.
Qed.

(** ** Verification, end to end *)

Lemma M_bind_ext {A B} (m : M A) (f g : A → M B) st :
  (∀ a st', m st = Ok (a, st') → f a st' = g a st') →
  (m ≫= f) st = (m ≫= g) st.
Proof.
  intros H. unfold mbind, M_bind. destruct (m st) as [[a st']| |]; auto.
Qed.

Lemma M_bind_ext' {A B} (m1 m2 : M A) (f : A → M B) :
  (∀ st, m1 st = m2 st) → ∀ st, (m1 ≫= f) st = (m2 ≫= f) st.
Proof. intros H st. unfold mbind, M_bind. by rewrite H. Qed.

(** With an expected string of 64 characters the two builds run the same
    check. *)
Lemma xbps_file_sha256_check_build NDEBUG OS SHA256 file sha256 st :
  String.length sha256 = 64%nat →
  xbps_file_sha256_check NDEBUG OS SHA256 file sha256 st
  = xbps_file_sha256_check true OS SHA256 file sha256 st.
Proof.
  intros Hs. unfold xbps_file_sha256_check.
  destruct (xbps_file_sha256_raw_run true OS SHA256 file st)
    as (r & st' & tr & Hrun & _ & _ & Hres).
  rewrite (M_bind_ok _ _ _ _ _ Hrun).
  rewrite <- (xbps_file_sha256_raw_build NDEBUG) in Hrun.
  rewrite (M_bind_ok _ _ _ _ _ Hrun).
  destruct r as [digest|]; [|done].
  assert (Hlen : length digest = XBPS_SHA256_DIGEST_SIZE).
  { destruct (os_open OS file); [by destruct Hres|].
    destruct (file_contents _); destruct Hres as [Hr _]; [done|].
    injection Hr as ->. apply length_vec_to_list. }
  unfold mbind, M_bind, lift. rewrite Hs.
  by rewrite !sha256_digest_compare_sized.
Qed.

(** The verification in a build with [NDEBUG] once the lookup has found
    the digest [sha256d]: the value of the check on the effective path
    decides. *)
Lemma xbps_file_hash_check_dictionary_production
    OS SHA256 xhp d key file st sha256d :
  retval (file_hash_dictionary d key file st) = Some (Some sha256d) →
  let rv := check_result OS SHA256 (effective_path xhp file) sha256d in
  retval (xbps_file_hash_check_dictionary true OS SHA256 xhp d key file st)
  = Some (if rv =? 0 then rc_matched
          else if (rv =? ERANGE) || (rv =? ENOENT) then rc_no_match
          else rc_error).
Proof.
  intros Hfound rv.
  rewrite (xbps_file_hash_check_dictionary_found _ _ _ _ _ _ _ _ _ Hfound).
  subst rv. unfold effective_path.
  destruct (String.eqb (rootdir xhp) "/").
  - destruct (xbps_file_sha256_check_production OS SHA256 file sha256d st)
      as (st' & Hcheck).
    rewrite (M_bind_ok _ _ _ _ _ Hcheck).
    generalize (check_result OS SHA256 file sha256d). intros rv.
    by destruct (rv =? 0), ((rv =? ERANGE) || (rv =? ENOENT)).
  - set (buf := (rootdir xhp ++ "/" ++ file)%string).
    destruct (xbps_file_sha256_check_production OS SHA256 buf sha256d
                (logged st [EvAlloc buf])) as (st' & Hcheck).
    unfold xbps_xasprintf, free, emit. fold buf.
    unfold mbind at 1 2 3 4 5, M_bind, mret, M_ret. rewrite Hcheck.
    generalize (check_result OS SHA256 buf sha256d). intros rv.
    by destruct (rv =? 0), ((rv =? ERANGE) || (rv =? ENOENT)).
Qed.

(** X13: when the digest the lookup finds has 64 characters, or the
    lookup finds none, a build with assertions and a build without them
    run the same verification: same calls, same [errno], same result. *)
Theorem X13_builds_agree NDEBUG OS SHA256 xhp d key file st :
  (∀ h, retval (file_hash_dictionary d key file st) = Some (Some h) →
        String.length h = 64%nat) →
  xbps_file_hash_check_dictionary NDEBUG OS SHA256 xhp d key file st
  = xbps_file_hash_check_dictionary true OS SHA256 xhp d key file st.
Proof.
  intros Hsize. unfold xbps_file_hash_check_dictionary.
  apply M_bind_ext. intros [h|] st1 Hfhd; [|done].
  assert (Hh : String.length h = 64%nat) by (apply Hsize; by rewrite Hfhd).
  apply M_bind_ext'. intros st2.
  destruct (String.eqb (rootdir xhp) "/").
  - by apply xbps_file_sha256_check_build.
  - unfold xbps_xasprintf, free, emit, mbind, M_bind, mret, M_ret.
    by rewrite (xbps_file_sha256_check_build NDEBUG).
Qed.

(** X14: the verification in a build with [NDEBUG], once the lookup has
    found a digest, on the effective path.  If the file opens and is read
    to its end, the result is 0 when the notation of its digest is the
    digest found and 1 when it is not.  If the file is missing ([open]
    fails with [ENOENT]) the result is 1 as well; if [open] fails with a
    code other than 0, [ENOENT] and [ERANGE] the result is -1. *)
Theorem X14_verification_end_to_end OS SHA256 xhp d key file st sha256d :
  retval (file_hash_dictionary d key file st) = Some (Some sha256d) →
  let path := effective_path xhp file in
  let result :=
    retval (xbps_file_hash_check_dictionary true OS SHA256 xhp d key file st) in
  (∀ fd m,
     os_open OS path = inr fd →
     file_contents (os_read OS (Z.of_N fd) sizeof_buf) = inr m →
     (digest2string (vec_to_list (SHA256 m)) 32 = Ok sha256d →
      result = Some 0)
     ∧ (digest2string (vec_to_list (SHA256 m)) 32 ≠ Ok sha256d →
        result = Some 1))
  ∧ (os_open OS path = inl ENOENT → result = Some 1)
  ∧ (∀ e, os_open OS path = inl e →
          e ≠ 0 → e ≠ ENOENT → e ≠ ERANGE → result = Some (-1)).
Proof.
  intros Hfound path result. subst result.
  rewrite (xbps_file_hash_check_dictionary_production _ _ _ _ _ _ _ _ Hfound).
  fold path. unfold check_result. split; [|split].
  - intros fd m -> ->.
    pose proof (encode_then_compare_true sha256d (SHA256_Final SHA256 m)
                  (length_vec_to_list _)) as Henc.
    unfold XBPS_SHA256_DIGEST_SIZE, SHA256_Final in Henc.
    fold (SHA256_Final SHA256 m) in Henc |- *.
    destruct (encode_then_compare _ _).
    + split; [done|]. intros Hne. destruct Hne. by apply Henc.
    + split; [|done]. intros Heq%Henc. done.
  - by intros ->.
  - intros e -> H0 H1 H2.
    apply Z.eqb_neq in H0, H1, H2. by rewrite H0, H1, H2.
Qed.

(** X15: when the dictionary has nothing under the key, or something that
    is no array, or an empty array, the verification returns 1 at once, in
    either build: it leaves [ENOENT] in [errno] and calls nothing. *)
Theorem X15_missing_key NDEBUG OS SHA256 xhp d key file st :
  (∀ items, d !! key = Some (XArray items) → items = []) →
  xbps_file_hash_check_dictionary NDEBUG OS SHA256 xhp d key file st
  = Ok (1, {| errno := ENOENT; trace := trace st |}).
Proof.
  intros Hkey.
  assert (Hnone : retval (file_hash_dictionary d key file st) = Some None).
  { unfold file_hash_dictionary, xbps_array_iter_from_dict.
    destruct (d !! key) as [[| | |items|]|] eqn:Hd; try done.
    by rewrite (Hkey items eq_refl). }
  apply file_hash_dictionary_state in Hnone.
  unfold xbps_file_hash_check_dictionary.
  by rewrite (M_bind_ok _ _ _ _ _ Hnone).
Qed.

Lemma retval_Some {A} (r : res (A * state)) a :
  retval r = Some a → ∃ st, r = Ok (a, st).
Proof. destruct r as [[a' st]| |]; [|done..]. intros [= ->]. by exists st. Qed.

(** The loop over the objects returns whenever [curfile] can be
    compared. *)
Lemma file_hash_dictionary_loop_returns file : ∀ items curfile,
  curfile_usable items curfile →
  ∃ r, file_hash_dictionary_loop file items curfile = Ok r.
Proof.
  induction items as [|o items IH]; intros curfile Hus; [by eexists|].
  cbn [file_hash_dictionary_loop]. fold (entry_file o).
  assert (Hst : ∃ c, stored (entry_file o) curfile = Some c).
  { destruct (entry_file o) as [c|] eqn:Heo; simpl; [by eexists|].
    destruct curfile as [c|]; [by eexists|].
    specialize (Hus eq_refl). simpl in Hus. rewrite Heo in Hus.
    by destruct Hus. }
  destruct Hst as (c & ->).
  destruct (String.eqb file c); [by eexists|].
  apply IH. by intros.
Qed.

(** X16: on a buffer of at least 65 bytes [xbps_file_sha256] makes the
    calls of [xbps_file_sha256_raw] and leaves the same [errno]; it
    returns false when that function does, and otherwise the notation of
    its digest. *)
Theorem X16_sha256_hex_of_raw NDEBUG OS SHA256 dstlen file st :
  (65 ≤ dstlen)%nat →
  ∃ r st',
    xbps_file_sha256_raw NDEBUG OS SHA256 32 file st = Ok (r, st')
    ∧ match r with
      | None =>
          xbps_file_sha256 NDEBUG OS SHA256 dstlen file st = Ok (None, st')
      | Some digest =>
          ∃ h, digest2string digest 32 = Ok h
               ∧ xbps_file_sha256 NDEBUG OS SHA256 dstlen file st
                 = Ok (Some h, st')
      end.
Proof.
  intros Hle.
  destruct (xbps_file_sha256_raw_run NDEBUG OS SHA256 file st)
    as (r & st' & tr & Hrun & _ & _ & Hres).
  exists r, st'. split; [exact Hrun|].
  unfold xbps_file_sha256.
  replace (XBPS_SHA256_SIZE <=? dstlen)%nat with true
    by (symmetry; by apply Nat.leb_le).
  replace (dstlen <? XBPS_SHA256_SIZE)%nat with false
    by (symmetry; apply Nat.ltb_ge; unfold XBPS_SHA256_SIZE; lia).
  rewrite (M_bind_ok _ _ st tt st)
    by (unfold lift, assert; by destruct NDEBUG).
  rewrite (M_bind_ok _ _ _ _ _ Hrun).
  destruct r as [digest|]; [|done].
  assert (Hlen : length digest = XBPS_SHA256_DIGEST_SIZE).
  { destruct (os_open OS file); [by destruct Hres|].
    destruct (file_contents _); destruct Hres as [Hr _]; [done|].
    injection Hr as ->. apply length_vec_to_list. }
  destruct (digest2string_ok digest XBPS_SHA256_DIGEST_SIZE)
    as (h & Hh & _); [lia|].
  exists h. split; [exact Hh|].
  unfold mbind, M_bind, lift. by rewrite Hh.
Qed.

(** X17: in a build with [NDEBUG], on a system where the reads of every
    file end, the verification returns, with 0, 1 or -1, on every
    dictionary whose array under the key is empty or starts with an
    object that names a file, whatever the digests recorded: no assertion
    aborts and neither loop reads outside its buffer. *)
Theorem X17_production_verification_returns OS SHA256 xhp d key file st :
  (∀ path fd, os_open OS path = inr fd →
              reads_end (os_read OS (Z.of_N fd) sizeof_buf)) →
  (∀ items, xbps_array_iter_from_dict d key = Some items →
            first_names_file items) →
  ∃ rc st',
    xbps_file_hash_check_dictionary true OS SHA256 xhp d key file st
    = Ok (rc, st')
    ∧ (rc = 0 ∨ rc = 1 ∨ rc = -1).
Proof.
  intros _ Hfirst.
  assert (Hlookup : ∃ r, retval (file_hash_dictionary d key file st) = Some r).
  { unfold file_hash_dictionary.
    destruct (xbps_array_iter_from_dict d key) as [items|] eqn:Hiter;
      [|by eexists].
    destruct (file_hash_dictionary_loop_returns file items None) as (r & Hr).
    { intros _. by apply Hfirst. }
    exists r. unfold mbind, M_bind, lift. rewrite Hr. by destruct r. }
  destruct Hlookup as ([h|] & Hr).
  - pose proof (xbps_file_hash_check_dictionary_production OS SHA256 xhp _ _ _
                  _ _ Hr) as Hrun.
    cbv zeta in Hrun. apply retval_Some in Hrun as (st' & ->).
    eexists _, st'. split; [reflexivity|].
    unfold rc_matched, rc_no_match, rc_error.
    destruct (_ =? 0); [by left|].
    destruct (_ || _); [right; by left|right; by right].
  - apply file_hash_dictionary_state in Hr.
    unfold xbps_file_hash_check_dictionary.
    rewrite (M_bind_ok _ _ _ _ _ Hr).
    eexists _, _. split; [reflexivity|]. right. by left.
Qed.

(** ** The further properties at concrete inputs *)

Lemma X1_witness :
  (2 ≤ length [x00; xff; x1a])%nat
  ∧ ∃ h, digest2string [x00; xff; x1a] 2 = Ok h
         ∧ String.length h = (2 * 2)%nat
         ∧ Forall is_lower_hex (list_ascii_of_string h).
Proof.
  split; [simpl; lia|].
  apply (X1_digest2string_lower_hex [x00; xff; x1a] 2). simpl; lia.
Defined.

Lemma X2_witness :
  digest2string [xab; x01] 1 = Ok "ab"%string
  ∧ digest2string [xab; x02] 1 = Ok "ab"%string
  ∧ take 1 [xab; x01] = take 1 [xab; x02].
Proof.
  split; [reflexivity|]. split; [reflexivity|].
  apply (X2_digest2string_injective [xab; x01] [xab; x02] 1 "ab");
    reflexivity.
Defined.

(** The notation of the first byte of two is accepted by the loop. *)
Lemma X3_witness :
  (String.length "61" ≤ 2 * length [x61; x62])%nat
  ∧ ∃ b, sha256_digest_compare_loop "61" [x61; x62] = Ok b
         ∧ (b = true ↔ digest2string [x61; x62] (String.length "61" / 2)
                       = Ok "61"%string).
Proof.
  split; [simpl; lia|].
  apply (X3_compare_loop_accepts_prefixes "61" [x61; x62]). simpl; lia.
Defined.

Lemma X4_witness :
  length (replicate 32 "a"%byte) = 32%nat
  ∧ sha256_digest_compare false hex_aa (String.length hex_aa)
      (replicate 32 "a"%byte) 32 = Ok true
  ∧ String.length hex_aa = 64%nat
  ∧ Forall is_lower_hex (list_ascii_of_string hex_aa).
Proof.
  split; [reflexivity|]. split; [reflexivity|].
  apply (X4_compare_accepts_only_lower_hex false hex_aa
           (replicate 32 "a"%byte)); reflexivity.
Defined.

(** A file of two pages and a byte is mapped. *)
Lemma X6_witness :
  page_size_ok (example_os 64 8193 []) 12
  ∧ ∃ mmflen filelen st',
      xbps_mmap_file (example_os 64 8193 []) "index" example_state
      = Ok (Some (1048576, mmflen, filelen), st').
Proof.
  assert (Hpage : page_size_ok (example_os 64 8193 []) 12)
    by (split; [reflexivity|simpl; lia]).
  split; [exact Hpage|].
  apply (X6_mmap_file_succeeds_iff (example_os 64 8193 []) 12 "index" 3%N 8193
           example_state Hpage eq_refl eq_refl ltac:(lia) 1048576).
  split; [vm_compute; discriminate|].
  exists 1048576%N. split; reflexivity.
Defined.

(** The empty file: [mmap] is asked for one page. *)
Lemma X7_witness :
  page_size_ok (example_os 64 0 []) 12
  ∧ ∃ r st' len tr,
      xbps_mmap_file (example_os 64 0 []) "index" example_state = Ok (r, st')
      ∧ trace st' = [] ++ EvOpen "index" :: EvFstat 3 :: EvMmap len 3 :: tr
      ∧ 0 < len
      ∧ len mod 4096 = 0
      ∧ 0 < len ≤ 0 + 4096
      ∧ len < size_modulus (example_os 64 0 []).
Proof.
  assert (Hpage : page_size_ok (example_os 64 0 []) 12)
    by (split; [reflexivity|simpl; lia]).
  split; [exact Hpage|].
  apply (X7_mmap_request_shape (example_os 64 0 []) 12 "index" 3%N 0
           example_state Hpage eq_refl eq_refl).
  split; [lia|vm_compute; discriminate].
Defined.

(** [mmap] fails with [ENOMEM]; [errno] ends as the [EINVAL] of
    [munmap]. *)
Lemma X8_witness :
  page_size_ok (example_os_no_memory 64 100) 12
  ∧ xbps_mmap_file (example_os_no_memory 64 100) "index" example_state
    = Ok (None,
          {| errno := EINVAL;
             trace := [EvOpen "index"; EvFstat 3; EvMmap 4096 3; EvClose 3;
                       EvMunmap (-1) 4096] |}).
Proof.
  assert (Hpage : page_size_ok (example_os_no_memory 64 100) 12)
    by (split; [reflexivity|simpl; lia]).
  split; [exact Hpage|].
  apply (X8_mmap_failure_errno (example_os_no_memory 64 100) 12 "index" 3%N
           100 example_state 12 Hpage eq_refl eq_refl).
  - split; [lia|vm_compute; discriminate].
  - reflexivity.
Defined.

(** A file read in two chunks. *)
Lemma X9_witness :
  retval (xbps_file_sha256_raw false
            (example_os 64 2 [RBytes ["a"%byte]; RBytes ["b"%byte]])
            example_sha256 32 "f" example_state)
  = Some (Some (vec_to_list (example_sha256 ["a"%byte; "b"%byte])))
  ∧ length (vec_to_list (example_sha256 ["a"%byte; "b"%byte])) = 32%nat.
Proof.
  apply (X9_sha256_raw_hashes_concatenation false
           (example_os 64 2 [RBytes ["a"%byte]; RBytes ["b"%byte]])
           example_sha256 "f" example_state 3%N
           [["a"%byte]; ["b"%byte]] []).
  - reflexivity.
  - reflexivity.
  - repeat constructor; discriminate.
  - by left.
Defined.

Lemma X11_witness :
  retval (xbps_file_sha256 false (example_os 64 1 [RBytes ["a"%byte]])
            example_sha256 65 "f" example_state) = Some (Some hex_aa)
  ∧ String.length hex_aa = 64%nat
  ∧ Forall is_lower_hex (list_ascii_of_string hex_aa)
  ∧ ∀ st2,
      retval (xbps_file_sha256_check false
                (example_os 64 1 [RBytes ["a"%byte]]) example_sha256
                "f" hex_aa st2) = Some 0.
Proof.
  split; [reflexivity|].
  apply (X11_sha256_then_check false (example_os 64 1 [RBytes ["a"%byte]])
           example_sha256 65 "f" example_state hex_aa).
  reflexivity.
Defined.

Lemma X12_witness :
  os_errors_nonzero (example_os 64 1 [RBytes ["a"%byte]])
  ∧ ∃ fd m,
      os_open (example_os 64 1 [RBytes ["a"%byte]]) "f" = inr fd
      ∧ file_contents
          (os_read (example_os 64 1 [RBytes ["a"%byte]]) (Z.of_N fd)
             sizeof_buf) = inr m
      ∧ digest2string (vec_to_list (example_sha256 m)) 32 = Ok hex_aa.
Proof.
  assert (Hos : os_errors_nonzero (example_os 64 1 [RBytes ["a"%byte]])).
  { split; [|split].
    - intros path e. simpl. destruct (String.eqb path "missing"); [|done].
      by intros [= <-].
    - intros fd count e. simpl. rewrite list_elem_of_singleton. done.
    - done. }
  split; [exact Hos|].
  apply (X12_check_zero_only_on_match true
           (example_os 64 1 [RBytes ["a"%byte]]) example_sha256 "f" hex_aa
           example_state Hos).
  reflexivity.
Defined.

Lemma X13_witness :
  xbps_file_hash_check_dictionary false
    (example_os 64 1 [RBytes ["a"%byte]]) example_sha256
    {| rootdir := "/mnt" |} example_dictionary "files" "etc/passwd"
    example_state
  = xbps_file_hash_check_dictionary true
      (example_os 64 1 [RBytes ["a"%byte]]) example_sha256
      {| rootdir := "/mnt" |} example_dictionary "files" "etc/passwd"
      example_state.
Proof.
  apply (X13_builds_agree false (example_os 64 1 [RBytes ["a"%byte]])
           example_sha256 {| rootdir := "/mnt" |} example_dictionary "files"
           "etc/passwd" example_state).
  intros h Hh. vm_compute in Hh. by injection Hh as <-.
Defined.

(** A tracked file that is missing on disk. *)
Lemma X14_witness :
  retval (file_hash_dictionary
            (<["files" := XArray [example_entry "missing" (Some hex_aa)]]> ∅)
            "files" "missing" example_state) = Some (Some hex_aa)
  ∧ retval (xbps_file_hash_check_dictionary true (example_os 64 0 [])
              example_sha256 {| rootdir := "/" |}
              (<["files" := XArray [example_entry "missing" (Some hex_aa)]]> ∅)
              "files" "missing" example_state) = Some 1.
Proof.
  assert (Hfound :
    retval (file_hash_dictionary
              (<["files" := XArray [example_entry "missing" (Some hex_aa)]]> ∅)
              "files" "missing" example_state) = Some (Some hex_aa))
    by (vm_compute; reflexivity).
  split; [exact Hfound|].
  destruct (X14_verification_end_to_end (example_os 64 0 []) example_sha256
              {| rootdir := "/" |}
              (<["files" := XArray [example_entry "missing" (Some hex_aa)]]> ∅)
              "files" "missing" example_state hex_aa Hfound)
    as (_ & Hmissing & _).
  apply Hmissing. reflexivity.
Defined.

(** A dictionary without the key. *)
Lemma X15_witness :
  xbps_file_hash_check_dictionary false (example_os 64 0 []) example_sha256
    {| rootdir := "/" |} example_dictionary "conf_files" "etc/passwd"
    example_state
  = Ok (1, {| errno := ENOENT; trace := [] |}).
Proof.
  apply (X15_missing_key false (example_os 64 0 []) example_sha256
           {| rootdir := "/" |} example_dictionary "conf_files" "etc/passwd"
           example_state).
  intros items Hitems. vm_compute in Hitems. discriminate.
Defined.

Lemma X16_witness :
  (65 ≤ 65)%nat
  ∧ ∃ r st',
      xbps_file_sha256_raw false (example_os 64 1 [RBytes ["a"%byte]])
        example_sha256 32 "f" example_state = Ok (r, st')
      ∧ match r with
        | None =>
            xbps_file_sha256 false (example_os 64 1 [RBytes ["a"%byte]])
              example_sha256 65 "f" example_state = Ok (None, st')
        | Some digest =>
            ∃ h, digest2string digest 32 = Ok h
                 ∧ xbps_file_sha256 false
                     (example_os 64 1 [RBytes ["a"%byte]])
                     example_sha256 65 "f" example_state = Ok (Some h, st')
        end.
Proof.
  split; [lia|].
  apply (X16_sha256_hex_of_raw false (example_os 64 1 [RBytes ["a"%byte]])
           example_sha256 65 "f" example_state). lia.
Defined.

Lemma X17_witness :
  ∃ rc st',
    xbps_file_hash_check_dictionary true
      (example_os 64 1 [RBytes ["a"%byte]; RBytes []]) example_sha256
      {| rootdir := "/" |} example_dictionary "files" "etc/group"
      example_state = Ok (rc, st')
    ∧ (rc = 0 ∨ rc = 1 ∨ rc = -1).
Proof.
  apply (X17_production_verification_returns
           (example_os 64 1 [RBytes ["a"%byte]; RBytes []]) example_sha256
           {| rootdir := "/" |} example_dictionary "files" "etc/group"
           example_state).
  - intros path fd _. exists [["a"%byte]], (RBytes []), [].
    split; [reflexivity|]. split; [by repeat constructor|by left].
  - intros items Hitems. vm_compute in Hitems. injection Hitems as <-.
    eexists. vm_compute. reflexivity.
Defined.

(** A file of one chunk, then end of file: two reads and one close. *)
Lemma X10_witness :
  ∃ r st',
    xbps_file_sha256_raw false
      (example_os 64 1 [RBytes ["a"%byte]; RBytes []]) example_sha256 32 "f"
      example_state = Ok (r, st')
    ∧ trace st' = [] ++ EvOpen "f"
        :: replicate (S (length [["a"%byte]])) (EvRead (Z.of_N 3) 65536)
        ++ [EvClose (Z.of_N 3)]
    ∧ (r = None ↔ ∃ e, RBytes [] = RError e).
Proof.
  destruct (X10_sha256_raw_calls false
              (example_os 64 1 [RBytes ["a"%byte]; RBytes []]) example_sha256
              "f" example_state) as [_ Hends].
  apply (Hends 3%N [["a"%byte]] (RBytes []) []).
  - reflexivity.
  - reflexivity.
  - by repeat constructor.
  - by left.
Defined.
